(** * df-enrich: the [enrich] DataFrame accessor

    A shallow embedding of [src/df_enrich/accessor.py] (class
    [EnrichAccessor]) and the properties its specification states about it.

    The accessor is glue code around pandas, pandera, PyYAML and
    ydata-profiling.  The embedding keeps the accessor's own control flow,
    statement by statement, over

    - an object store in which every DataFrame lives at a location, so
      that "a new object", "the caller's instance" and "mutated in place"
      have their Python meaning;
    - a state-and-exception monad for [raise], [try ... except] and
      [warnings.warn];
    - the external libraries as interfaces (type classes): the accessor is
      verified against any behaviour of [DataFrame.eval], [Series.astype],
      [DataFrame.merge], [DataFrame.describe], [open], [yaml.safe_load],
      the schema object and [ProfileReport]; small executable instances of
      these interfaces are given to run the accessor on concrete tables. *)

From stdpp Require Import base strings list gmap.
From Stdlib Require Import ZArith QArith Qcanon Ascii.

Close Scope Q_scope.
Close Scope Qc_scope.
Open Scope Z_scope.
Open Scope string_scope.
Open Scope list_scope.

(* ================================================================== *)
(** * Python runtime: exceptions, messages, warnings                  *)
(* ================================================================== *)

(** The exception classes that occur in the accessor or reach it from its
    collaborators, with Python's class hierarchy.  [IOError] is Python 3's
    alias of [OSError]. *)
Inductive exc_class :=
  | BaseException | Exception
  | ValueError | TypeError | AttributeError | KeyError | NameError
  | RuntimeError | NotImplementedError
  | ImportError | ModuleNotFoundError
  | OSError | FileNotFoundError | PermissionError | IsADirectoryError
  | UnicodeDecodeError
  | YAMLError | SchemaError | MergeError
  | InvalidReference.

#[global] Instance exc_class_eq_dec : EqDecision exc_class.
Proof. solve_decision. Defined.

Definition exc_parent (c : exc_class) : option exc_class :=
  match c with
  | BaseException => None
  | Exception => Some BaseException
  | ValueError | TypeError | AttributeError | KeyError | NameError
  | RuntimeError | ImportError | OSError | YAMLError => Some Exception
  | NotImplementedError => Some RuntimeError
  | ModuleNotFoundError => Some ImportError
  | FileNotFoundError | PermissionError | IsADirectoryError => Some OSError
  | UnicodeDecodeError | MergeError => Some ValueError
  | SchemaError => Some Exception
  (* not a Python class: the model's report of a location that holds no
     object; no handler catches it *)
  | InvalidReference => None
  end.

(** [issubclass c h]: [c] is [h] or derives from it.  The hierarchy above
    is three levels deep. *)
Fixpoint issubclass_upto (depth : nat) (c h : exc_class) : bool :=
  bool_decide (c = h) ||
  match depth, exc_parent c with
  | S d, Some p => issubclass_upto d p h
  | _, _ => false
  end.

Definition issubclass (c h : exc_class) : bool := issubclass_upto 4 c h.

(** An f-string, kept as its parts: the literal text and the interpolated
    values.  A message "names" or "contains" a value when the value is one
    of its parts. *)
Inductive fragment :=
  | Lit (s : string)            (* literal text *)
  | FStr (s : string)           (* {s} for a str *)
  | FList (l : list string)     (* {l} for a list of str *)
  | FInt (n : Z)                (* {n} for an integer *)
  | FType (name : string).      (* {type(x)} *)

#[global] Instance fragment_eq_dec : EqDecision fragment.
Proof. solve_decision. Defined.

Definition message := list fragment.

Record exn := mk_exn { exn_class : exc_class; exn_msg : message }.

#[global] Instance exn_eq_dec : EqDecision exn.
Proof. solve_decision. Defined.

(** [isinstance(e, h)] for an exception [e] and a handler class [h]. *)
Definition isinstance_exn (e : exn) (h : exc_class) : bool :=
  issubclass (exn_class e) h.

Inductive warning_category := UserWarning | ImportWarning.

#[global] Instance warning_category_eq_dec : EqDecision warning_category.
Proof. solve_decision. Defined.

Record warning := mk_warning { w_category : warning_category; w_message : message }.

#[global] Instance warning_eq_dec : EqDecision warning.
Proof. solve_decision. Defined.

(** The result of a call: a value or a raised exception. *)
Inductive outcome (A : Type) :=
  | Ok (a : A)
  | Raise (e : exn).
Arguments Ok {A} a.
Arguments Raise {A} e.

Definition is_ok {A} (o : outcome A) : Prop :=
  match o with Ok _ => True | Raise _ => False end.

(* ================================================================== *)
(** * pandas data model                                               *)
(* ================================================================== *)

(** A cell of a column.  [CNull] stands for every missing marker (NaN,
    None, NaT): what [isnull()] answers True on.  Floating-point cells are
    carried as exact rationals: the rounding of float64 arithmetic is not
    modelled, and no statement below depends on the value of a
    floating-point result. *)
Inductive cell :=
  | CNull
  | CInt (z : Z)
  | CFloat (q : Qc)
  | CStr (s : string)
  | CBool (b : bool).

Definition isnull (c : cell) : bool :=
  match c with CNull => true | _ => false end.

#[global] Instance cell_null_dec (c : cell) : Decision (c = CNull).
Proof. destruct c; first [by left | by right]. Defined.

Record Series := mk_series { dtype : string; values : list cell }.

(** Row labels of an index. *)
Inductive label := LInt (z : Z) | LStr (s : string).

#[global] Instance label_eq_dec : EqDecision label.
Proof. solve_decision. Defined.

(** Values stored in [DataFrame.attrs] by the accessor. *)
Inductive attr_value :=
  | ABool (b : bool)
  | AStr (s : string)
  | ADict (d : list (string * string)).

#[global] Instance attr_value_eq_dec : EqDecision attr_value.
Proof. solve_decision. Defined.

(** A DataFrame: its index, its columns in order (label and data), and the
    [attrs] dictionary.  Column labels are strings. *)
Record DataFrame := mk_df {
  index : list label;
  data : list (string * Series);
  attrs : gmap string attr_value
}.

Definition columns (df : DataFrame) : list string := (data df).*1.

(** [df[col]] *)
Fixpoint assoc {V} (k : string) (l : list (string * V)) : option V :=
  match l with
  | [] => None
  | (k', v) :: rest => if decide (k = k') then Some v else assoc k rest
  end.

Definition get_column (df : DataFrame) (col : string) : option Series :=
  assoc col (data df).

(** [df[col] = s]: an existing column is replaced where it stands, a new
    one is appended. *)
Fixpoint assoc_set {V} (k : string) (v : V) (l : list (string * V)) : list (string * V) :=
  match l with
  | [] => [(k, v)]
  | (k', v') :: rest =>
      if decide (k = k') then (k, v) :: rest else (k', v') :: assoc_set k v rest
  end.

Definition set_column (df : DataFrame) (col : string) (s : Series) : DataFrame :=
  {| index := index df; data := assoc_set col s (data df); attrs := attrs df |}.

(** [df.attrs[key] = v] *)
Definition set_attr (df : DataFrame) (key : string) (v : attr_value) : DataFrame :=
  {| index := index df; data := data df; attrs := <[key := v]> (attrs df) |}.

(** [df[cols]] for a list of labels: the frame of those columns, in the
    order asked, with the same index and [attrs]; [KeyError] when a label
    is absent. *)
Fixpoint select_data (d : list (string * Series)) (cols : list string)
  : outcome (list (string * Series)) :=
  match cols with
  | [] => Ok []
  | c :: rest =>
      match assoc c d with
      | None => Raise (mk_exn KeyError [FStr c])
      | Some s =>
          match select_data d rest with
          | Ok sel => Ok ((c, s) :: sel)
          | Raise e => Raise e
          end
      end
  end.

Definition select_columns (df : DataFrame) (cols : list string) : outcome DataFrame :=
  match select_data (data df) cols with
  | Ok sel => Ok {| index := index df; data := sel; attrs := attrs df |}
  | Raise e => Raise e
  end.

(** [s.isnull().sum()] *)
Definition null_count (s : Series) : Z :=
  Z.of_nat (length (filter (fun c => isnull c = true) (values s))).

(** [df.isnull().sum().sum()] *)
Definition isnull_sum_sum (df : DataFrame) : Z :=
  foldr (fun cs acc => null_count cs.2 + acc) 0 (data df).

(** [df.shape] *)
Definition shape (df : DataFrame) : Z * Z :=
  (Z.of_nat (length (index df)), Z.of_nat (length (data df))).

(** [df.dtypes.to_dict()] *)
Definition dtypes_to_dict (df : DataFrame) : list (string * string) :=
  map (fun cs => (cs.1, dtype cs.2)) (data df).

(** [df.isnull().sum().to_dict()] *)
Definition isnull_sum_to_dict (df : DataFrame) : list (string * Z) :=
  map (fun cs => (cs.1, null_count cs.2)) (data df).

(* ================================================================== *)
(** * The object store and the effect monad                           *)
(* ================================================================== *)

(** Every DataFrame object lives at a location of the heap.  Objects are
    allocated at the end and never freed, so the location [length heap] is
    always unused.  Two names are the same object exactly when they are
    the same location. *)
Definition loc := nat.

Record world := mk_world {
  heap : list DataFrame;
  warnings_log : list warning      (* what [warnings.warn] was called with, in order *)
}.

(** A computation reads and updates the world and returns or raises. *)
Definition M (A : Type) : Type := world → outcome A * world.

#[global] Instance M_ret : MRet M := λ A a w, (Ok a, w).

#[global] Instance M_bind : MBind M := λ A B f m w,
  match m w with
  | (Ok a, w') => f a w'
  | (Raise e, w') => (Raise e, w')
  end.

(** [raise cls(msg)] *)
Definition raise {A} (cls : exc_class) (msg : message) : M A :=
  λ w, (Raise (mk_exn cls msg), w).

(** The result of a call into a library that has no effect on the store. *)
Definition lift {A} (o : outcome A) : M A := λ w, (o, w).

(** [warnings.warn(msg, category)] *)
Definition warn (cat : warning_category) (msg : message) : M unit :=
  λ w, (Ok tt, {| heap := heap w; warnings_log := warnings_log w ++ [mk_warning cat msg] |}).

(** [try: body except handled as e: handler(e)].  Effects of [body] up to
    the exception are kept; an exception that is no instance of a handled
    class propagates. *)
Definition try_except {A} (body : M A) (handled : list exc_class) (handler : exn → M A) : M A :=
  λ w,
  match body w with
  | (Ok a, w') => (Ok a, w')
  | (Raise e, w') =>
      if existsb (isinstance_exn e) handled then handler e w' else (Raise e, w')
  end.

(** Reading and writing the object at a location. *)
Definition load (l : loc) : M DataFrame :=
  λ w,
  match heap w !! l with
  | Some df => (Ok df, w)
  | None => (Raise (mk_exn InvalidReference []), w)
  end.

Definition store (l : loc) (df : DataFrame) : M unit :=
  λ w,
  match heap w !! l with
  | Some _ => (Ok tt, {| heap := <[l := df]> (heap w); warnings_log := warnings_log w |})
  | None => (Raise (mk_exn InvalidReference []), w)
  end.

(** A new object. *)
Definition alloc (df : DataFrame) : M loc :=
  λ w, (Ok (length (heap w)), {| heap := heap w ++ [df]; warnings_log := warnings_log w |}).

(** [obj.copy()]: a new DataFrame object with the same index, data and
    [attrs] (pandas copies the data deeply and carries [attrs] over to the
    copy). *)
Definition copy (l : loc) : M loc := df ← load l; alloc df.

(** [obj[col] = s] on the object at [l]. *)
Definition setitem (l : loc) (col : string) (s : Series) : M unit :=
  df ← load l; store l (set_column df col s).

(** [obj.attrs[key] = v] on the object at [l]. *)
Definition attrs_setitem (l : loc) (key : string) (v : attr_value) : M unit :=
  df ← load l; store l (set_attr df key v).

(* ================================================================== *)
(** * Arguments of the accessor's methods                             *)
(* ================================================================== *)

(** A Python value given as [spec] to [derive], or produced by
    [yaml.safe_load]: a [str], a [dict] from column names to expressions
    (in insertion order), or a value of another type, of which only the
    type's name matters. *)
Inductive pyobj :=
  | PStr (s : string)
  | PDict (d : list (string * string))
  | POther (type_name : string).

Definition type_name_of (v : pyobj) : string :=
  match v with
  | PStr _ => "<class 'str'>"
  | PDict _ => "<class 'dict'>"
  | POther n => n
  end.

(** [v.items()] *)
Definition items (v : pyobj) : M (list (string * string)) :=
  match v with
  | PDict d => mret d
  | _ => raise AttributeError [FType (type_name_of v); Lit " object has no attribute 'items'"]
  end.

(** The [src] argument of [lookup]: a DataFrame, a string, or anything
    else. *)
Inductive source :=
  | SrcTable (l : loc)
  | SrcStr (s : string)
  | SrcOther (type_name : string).

(** The [dst] argument of [lookup]: a column name or a list of them. *)
Inductive dst_arg :=
  | DstStr (s : string)
  | DstList (l : list string).

(** [if isinstance(dst, str): dst = [dst]] *)
Definition as_list (dst : dst_arg) : list string :=
  match dst with
  | DstStr s => [s]
  | DstList l => l
  end.

(** A custom resolver: [resolver(df, src, dst) -> DataFrame], any code. *)
Definition Resolver : Type := loc → source → dst_arg → M loc.

(** Keyword arguments passed through to the profiling engine. *)
Inductive kwvalue := KBool (b : bool) | KInt (z : Z) | KStr (s : string).
Definition kwargs := list (string * kwvalue).

(** A schema object: its [validate(obj, lazy=...)] method, any code, and
    its [str()]. *)
Record Schema := mk_schema {
  schema_validate : loc → bool → M loc;
  schema_str : string
}.

(** The [schema] argument of [validate]: a schema instance, or a
    [DataFrameModel] subclass, which has a [to_schema()]. *)
Inductive schema_arg :=
  | SchemaInstance (s : Schema)
  | ModelClass (to_schema : Schema).

(** The schema object that [validate] calls: a [DataFrameModel] subclass
    is converted first, [schema.to_schema()]. *)
Definition schema_of (schema : schema_arg) : Schema :=
  match schema with
  | ModelClass to_schema => to_schema
  | SchemaInstance s => s
  end.

(* ================================================================== *)
(** * The external libraries, as interfaces                           *)
(* ================================================================== *)

(** The parts of pandas the accessor calls and that have no model above.

    [df_eval df expr] is [df.eval(expr)] as a column of [df]: the value
    that [df[name] = df.eval(expr)] stores.
    [astype s dtype] is [s.astype(dtype)].
    [merge_on_index left right suffixes] is
    [left.merge(right, left_index=True, right_index=True, how='left',
    suffixes=suffixes)].
    [describe df] is [df.describe().to_dict()]. *)
Class Pandas := {
  describe_result : Type;
  df_eval : DataFrame → string → outcome Series;
  astype : Series → string → outcome Series;
  merge_on_index : DataFrame → DataFrame → string * string → outcome DataFrame;
  describe : DataFrame → outcome describe_result
}.

(** The file system and PyYAML.  [read_text path] is [open(path, 'r')]
    followed by reading the stream; [safe_load text] is [yaml.safe_load]
    on a text. *)
Class Host := {
  read_text : string → outcome string;
  safe_load : string → outcome pyobj
}.

(** ydata-profiling.  [import_ProfileReport] is the outcome of
    [from ydata_profiling import ProfileReport]: the class, to be called
    on an object and keyword arguments, or the exception of the import. *)
Class YData := {
  report : Type;
  import_ProfileReport : outcome (loc → kwargs → M report)
}.

(* ================================================================== *)
(** * EnrichAccessor                                                   *)
(* ================================================================== *)

(** The accessor object holds [self._obj], the DataFrame it was reached
    from: [df.enrich.m(args)] is [m args l] for the location [l] of [df].
    A DataFrame always has [attrs], so the guard
    [if not hasattr(df, 'attrs'): df.attrs = {}] that precedes each
    provenance block never fires and is left out. *)
Section EnrichAccessor.
Context `{!Pandas, !Host, !YData}.

(** ** validate (accessor.py, lines 23-60) *)
Definition validate (schema : schema_arg) (self : loc) : M loc :=
  (* a DataFrameModel subclass is first converted: schema.to_schema() *)
  let schema := schema_of schema in
  validated_df ← schema_validate schema self false;
  attrs_setitem validated_df "enrich_validated" (ABool true);;
  attrs_setitem validated_df "enrich_schema" (AStr (schema_str schema));;
  mret validated_df.

(** ** derive (lines 62-118) *)

(** Lines 87-102: from the [spec] argument to [spec_dict]. *)
Definition resolve_spec (spec : pyobj) : M pyobj :=
  match spec with
  | PStr text =>
      try_except
        (* with open(spec, 'r') as f: spec_dict = yaml.safe_load(f) *)
        (content ← lift (read_text text); lift (safe_load content))
        [FileNotFoundError; OSError]
        (λ _,
          try_except
            (lift (safe_load text))
            [YAMLError]
            (λ _, raise ValueError [Lit "Invalid YAML specification: "; FStr text]))
  | PDict d => mret (PDict d)
  | POther _ =>
      raise TypeError [Lit "spec must be str or dict, got "; FType (type_name_of spec)]
  end.

(** Lines 106-110: the loop over [spec_dict.items()], on the object [df]. *)
Fixpoint derive_entries (entries : list (string * string)) (df : loc) : M unit :=
  match entries with
  | [] => mret tt
  | (col_name, expression) :: rest =>
      try_except
        (frame ← load df;
         column ← lift (df_eval frame expression);
         setitem df col_name column)
        [Exception]
        (λ e, raise ValueError
                ([Lit "Failed to derive column '"; FStr col_name;
                  Lit "' with expression '"; FStr expression; Lit "': "]
                 ++ exn_msg e));;
      derive_entries rest df
  end.

Definition derive (spec : pyobj) (self : loc) : M loc :=
  df ← copy self;
  spec_dict ← resolve_spec spec;
  entries ← items spec_dict;
  derive_entries entries df;;
  attrs_setitem df "enrich_derived" (ABool true);;
  attrs_setitem df "enrich_derivations" (ADict entries);;
  mret df.

(** ** profile and _basic_profile (lines 120-172) *)

Inductive basic_stat :=
  | StShape (s : Z * Z)
  | StDtypes (d : list (string * string))
  | StMissing (d : list (string * Z))
  | StDescribe (d : describe_result).

Inductive profile_result :=
  | ProfileReport (r : report)
  | BasicProfile (d : list (string * basic_stat)).

Definition _basic_profile (self : loc) : M (list (string * basic_stat)) :=
  obj ← load self;
  described ← lift (describe obj);
  mret [("shape", StShape (shape obj));
        ("dtypes", StDtypes (dtypes_to_dict obj));
        ("missing", StMissing (isnull_sum_to_dict obj));
        ("describe", StDescribe described)].

(** [ProfileReport(self._obj, minimal=True, lazy=True, **kwargs)]: Python
    refuses a keyword given twice. *)
Definition call_minimal_lazy (cls : loc → kwargs → M report) (self : loc) (kw : kwargs)
  : M report :=
  match filter (λ k, k = "minimal" ∨ k = "lazy") (kw.*1) with
  | [] => cls self (("minimal", KBool true) :: ("lazy", KBool true) :: kw)
  | k :: _ => raise TypeError [Lit "got multiple values for keyword argument '"; FStr k; Lit "'"]
  end.

Definition profile (engine : string) (lazy : bool) (kw : kwargs) (self : loc)
  : M profile_result :=
  if decide (engine = "ydata") then
    try_except
      (cls ← lift import_ProfileReport;
       r ← (if lazy then call_minimal_lazy cls self kw else cls self kw);
       mret (ProfileReport r))
      [ImportError]
      (λ _,
        warn ImportWarning
          [Lit "ydata-profiling not installed. Install with: pip install ydata-profiling"];;
        d ← _basic_profile self;
        mret (BasicProfile d))
  else
    raise ValueError [Lit "Unsupported profiling engine: "; FStr engine;
                      Lit ". Supported: 'ydata'"].

(** ** lookup (lines 174-267) *)

(** Lines 243-247: the missing-value policy. *)
Definition apply_on_missing (on_missing : string) (missing_count : Z) (dst : list string)
  : M unit :=
  if decide (missing_count > 0) then
    if decide (on_missing = "raise") then
      raise ValueError [Lit "Lookup failed: "; FInt missing_count;
                        Lit " missing values in "; FList dst]
    else if decide (on_missing = "warn") then
      warn UserWarning [Lit "Lookup resulted in "; FInt missing_count;
                        Lit " missing values in "; FList dst]
    else mret tt
  else mret tt.

Definition lookup (src : source) (dst : dst_arg) (resolver : option Resolver)
    (on_missing : string) (self : loc) : M loc :=
  df ← copy self;
  match resolver with
  | Some resolve =>
      (* df = resolver(df, src, dst); return df *)
      resolve df src dst
  | None =>
      df ← match src with
           | SrcTable src_l =>
               let dst := as_list dst in
               src_df ← load src_l;
               let missing_cols := filter (λ col, col ∉ columns src_df) dst in
               match missing_cols with
               | _ :: _ =>
                   raise ValueError
                     [Lit "Columns "; FList missing_cols;
                      Lit " not found in source DataFrame. Available columns: ";
                      FList (columns src_df)]
               | [] =>
                   left ← load df;
                   right ← lift (select_columns src_df dst);
                   merged ← lift (merge_on_index left right (EmptyString, "_lookup"));
                   result ← alloc merged;
                   (* dst is a list here: result[dst].isnull().sum().sum() *)
                   selected ← lift (select_columns merged dst);
                   let missing_count := isnull_sum_sum selected in
                   apply_on_missing on_missing missing_count dst;;
                   mret result
               end
           | SrcStr s =>
               raise NotImplementedError
                 [Lit "String-based lookup sources ('"; FStr s;
                  Lit "') require df-eval Engine integration. ";
                  Lit "Use a DataFrame or custom resolver for now."]
           | SrcOther type_name =>
               raise TypeError [Lit "src must be str or DataFrame, got "; FType type_name]
           end;
      attrs_setitem df "enrich_lookup" (ABool true);;
      mret df
  end.

(** ** cast (lines 290-328) *)

(** Lines 318-320: the loop over [dtype_spec.items()], on the object [df]. *)
Fixpoint cast_entries (entries : list (string * string)) (df : loc) : M unit :=
  match entries with
  | [] => mret tt
  | (col, dtype) :: rest =>
      frame ← load df;
      match get_column frame col with
      | Some column =>
          converted ← lift (astype column dtype);
          setitem df col converted
      | None => mret tt
      end;;
      cast_entries rest df
  end.

Definition cast (dtype_spec : list (string * string)) (self : loc) : M loc :=
  df ← copy self;
  frame ← load df;
  let missing_cols := filter (λ col, col ∉ columns frame) (dtype_spec.*1) in
  match missing_cols with
  | _ :: _ =>
      warn UserWarning
        [Lit "Columns "; FList missing_cols;
         Lit " not found in DataFrame. Available columns: "; FList (columns frame);
         Lit ". These columns will be skipped."]
  | [] => mret tt
  end;;
  cast_entries dtype_spec df;;
  attrs_setitem df "enrich_cast" (ABool true);;
  attrs_setitem df "enrich_dtypes" (ADict dtype_spec);;
  mret df.

(** ** __init__ and config (lines 19-21, 269-288) *)

(** The accessor object: [self._obj] and [self._config], a dict from
    option names to values, in insertion order. *)
Record EnrichAccessor := mk_accessor {
  _obj : loc;
  _config : list (string * kwvalue)
}.

Definition __init__ (pandas_obj : loc) : EnrichAccessor :=
  {| _obj := pandas_obj; _config := [] |}.

(** [d.update(kwargs)]: each pair in turn, [d[k] = v]. *)
Definition dict_update {V} (d kw : list (string * V)) : list (string * V) :=
  foldl (λ d kv, assoc_set kv.1 kv.2 d) d kw.

(** [self._config.update(kwargs); return self]: the accessor after the
    call, which is what the call returns. *)
Definition config (kw : kwargs) (self : EnrichAccessor) : EnrichAccessor :=
  {| _obj := _obj self; _config := dict_update (_config self) kw |}.

(** ** The five operations under one type *)

Inductive call :=
  | CallValidate (schema : schema_arg)
  | CallDerive (spec : pyobj)
  | CallCast (dtype_spec : list (string * string))
  | CallLookup (src : source) (dst : dst_arg) (resolver : option Resolver) (on_missing : string)
  | CallProfile (engine : string) (lazy : bool) (kw : kwargs).

Inductive value :=
  | VTable (l : loc)
  | VProfile (p : profile_result).

Definition run (c : call) (self : loc) : M value :=
  match c with
  | CallValidate schema => l ← validate schema self; mret (VTable l)
  | CallDerive spec => l ← derive spec self; mret (VTable l)
  | CallCast dtype_spec => l ← cast dtype_spec self; mret (VTable l)
  | CallLookup src dst resolver on_missing =>
      l ← lookup src dst resolver on_missing self; mret (VTable l)
  | CallProfile engine lazy kw => p ← profile engine lazy kw self; mret (VProfile p)
  end.

End EnrichAccessor.

(* ================================================================== *)
(** * Executable instances of the interfaces                           *)
(* ================================================================== *)

(** ** An expression evaluator for the arithmetic fragment

    [DataFrame.eval] on column names, integer and decimal literals, [+],
    [-], [*] and parentheses, with the usual precedence, applied row by
    row.  Outside this fragment the evaluator raises. *)
Module ArithEval.

Inductive token :=
  | TId (s : string)
  | TInt (z : Z)
  | TDec (q : Qc)
  | TPlus | TMinus | TStar | TLParen | TRParen.

Definition is_digit (a : ascii) : bool :=
  let n := nat_of_ascii a in (48 <=? n)%nat && (n <=? 57)%nat.

Definition is_alpha (a : ascii) : bool :=
  let n := nat_of_ascii a in
  ((65 <=? n)%nat && (n <=? 90)%nat) || ((97 <=? n)%nat && (n <=? 122)%nat)
  || (n =? 95)%nat.

Definition is_space (a : ascii) : bool :=
  let n := nat_of_ascii a in (n =? 32)%nat || (n =? 9)%nat.

Definition digit_value (a : ascii) : Z := Z.of_nat (nat_of_ascii a - 48).

(** The longest prefix of [l] whose characters satisfy [p], and the rest. *)
Fixpoint span (p : ascii → bool) (l : list ascii) : list ascii * list ascii :=
  match l with
  | a :: rest =>
      if p a then let '(pre, post) := span p rest in (a :: pre, post) else ([], l)
  | [] => ([], [])
  end.

Definition digits_value (ds : list ascii) : Z :=
  fold_left (λ acc d, 10 * acc + digit_value d) ds 0.

Definition decimal (int_part frac_part : list ascii) : Qc :=
  Q2Qc (Qmake (digits_value (int_part ++ frac_part))
              (Pos.pow 10 (Pos.of_nat (length frac_part)))).

(** The token of a one-character symbol. *)
Definition symbol (a : ascii) : option token :=
  if Ascii.eqb a "+" then Some TPlus
  else if Ascii.eqb a "-" then Some TMinus
  else if Ascii.eqb a "*" then Some TStar
  else if Ascii.eqb a "(" then Some TLParen
  else if Ascii.eqb a ")" then Some TRParen
  else None.

Definition is_point (a : ascii) : bool := Ascii.eqb a ".".

Fixpoint tokenize (fuel : nat) (l : list ascii) : option (list token) :=
  match fuel with
  | O => None
  | S fuel =>
      match l with
      | [] => Some []
      | a :: rest =>
          if is_space a then tokenize fuel rest
          else if is_digit a then
            let '(int_part, after) := span is_digit l in
            match after with
            | d :: after' =>
                if is_point d then
                  let '(frac_part, after'') := span is_digit after' in
                  match frac_part with
                  | [] => None
                  | _ => cons (TDec (decimal int_part frac_part)) <$> tokenize fuel after''
                  end
                else cons (TInt (digits_value int_part)) <$> tokenize fuel after
            | [] => Some [TInt (digits_value int_part)]
            end
          else if is_alpha a then
            let '(name, after) := span (λ c, is_alpha c || is_digit c) l in
            cons (TId (String.string_of_list_ascii name)) <$> tokenize fuel after
          else
            match symbol a with
            | Some t => cons t <$> tokenize fuel rest
            | None => None
            end
      end
  end.

Inductive binop := Add | Sub | Mul.

Inductive expr :=
  | EName (s : string)
  | EInt (z : Z)
  | EDec (q : Qc)
  | EBin (op : binop) (l r : expr).

(** Recursive descent: sum := product (('+' | '-') product)*,
    product := atom ('*' atom)*, atom := name | literal | '(' sum ')'. *)
Fixpoint parse_sum (fuel : nat) (toks : list token) : option (expr * list token) :=
  match fuel with
  | O => None
  | S fuel =>
      '(lhs, rest) ← parse_product fuel toks;
      parse_sum_tail fuel lhs rest
  end
with parse_sum_tail (fuel : nat) (lhs : expr) (toks : list token)
  : option (expr * list token) :=
  match fuel with
  | O => None
  | S fuel =>
      match toks with
      | TPlus :: rest =>
          '(rhs, rest') ← parse_product fuel rest;
          parse_sum_tail fuel (EBin Add lhs rhs) rest'
      | TMinus :: rest =>
          '(rhs, rest') ← parse_product fuel rest;
          parse_sum_tail fuel (EBin Sub lhs rhs) rest'
      | _ => Some (lhs, toks)
      end
  end
with parse_product (fuel : nat) (toks : list token) : option (expr * list token) :=
  match fuel with
  | O => None
  | S fuel =>
      '(lhs, rest) ← parse_atom fuel toks;
      parse_product_tail fuel lhs rest
  end
with parse_product_tail (fuel : nat) (lhs : expr) (toks : list token)
  : option (expr * list token) :=
  match fuel with
  | O => None
  | S fuel =>
      match toks with
      | TStar :: rest =>
          '(rhs, rest') ← parse_atom fuel rest;
          parse_product_tail fuel (EBin Mul lhs rhs) rest'
      | _ => Some (lhs, toks)
      end
  end
with parse_atom (fuel : nat) (toks : list token) : option (expr * list token) :=
  match fuel with
  | O => None
  | S fuel =>
      match toks with
      | TId s :: rest => Some (EName s, rest)
      | TInt z :: rest => Some (EInt z, rest)
      | TDec q :: rest => Some (EDec q, rest)
      | TLParen :: rest =>
          '(e, rest') ← parse_sum fuel rest;
          match rest' with
          | TRParen :: rest'' => Some (e, rest'')
          | _ => None
          end
      | _ => None
      end
  end.

Definition parse (text : string) : option expr :=
  let chars := String.list_ascii_of_string text in
  toks ← tokenize (S (length chars)) chars;
  '(e, rest) ← parse_sum (4 * S (length toks)) toks;
  match rest with [] => Some e | _ => None end.

(** The value of an expression: one number for all rows, or a column. *)
Inductive operand :=
  | Scalar (c : cell)
  | Column (s : Series).

Definition is_float_dtype (d : string) : bool :=
  bool_decide (d = "float64") || bool_decide (d = "float32").

Definition is_int_dtype (d : string) : bool :=
  bool_decide (d = "int64") || bool_decide (d = "int32").

Definition Z2Qc (z : Z) : Qc := Q2Qc (inject_Z z).

Definition apply_int (op : binop) (a b : Z) : Z :=
  match op with Add => a + b | Sub => a - b | Mul => a * b end.

Definition apply_float (op : binop) (a b : Qc) : Qc :=
  match op with Add => Qcplus a b | Sub => Qcminus a b | Mul => Qcmult a b end.

Definition apply_cell (op : binop) (a b : cell) : outcome cell :=
  match a, b with
  | CInt x, CInt y => Ok (CInt (apply_int op x y))
  | CInt x, CFloat y => Ok (CFloat (apply_float op (Z2Qc x) y))
  | CFloat x, CInt y => Ok (CFloat (apply_float op x (Z2Qc y)))
  | CFloat x, CFloat y => Ok (CFloat (apply_float op x y))
  | CNull, (CNull | CInt _ | CFloat _) | (CInt _ | CFloat _), CNull => Ok CNull
  | _, _ => Raise (mk_exn TypeError [Lit "unsupported operand type(s)"])
  end.

Fixpoint map_outcome {A B} (f : A → outcome B) (l : list A) : outcome (list B) :=
  match l with
  | [] => Ok []
  | a :: rest =>
      match f a with
      | Raise e => Raise e
      | Ok b => match map_outcome f rest with
                | Raise e => Raise e
                | Ok bs => Ok (b :: bs)
                end
      end
  end.

Definition scalar_dtype (c : cell) : string :=
  match c with
  | CInt _ => "int64"
  | CFloat _ | CNull => "float64"
  | CStr _ => "object"
  | CBool _ => "bool"
  end.

Definition result_dtype (d1 d2 : string) : string :=
  if is_int_dtype d1 && is_int_dtype d2 then "int64" else "float64".

Definition apply_operands (op : binop) (a b : operand) : outcome operand :=
  match a, b with
  | Scalar x, Scalar y =>
      match apply_cell op x y with Ok c => Ok (Scalar c) | Raise e => Raise e end
  | Scalar x, Column s =>
      match map_outcome (apply_cell op x) (values s) with
      | Ok vs => Ok (Column (mk_series (result_dtype (scalar_dtype x) (dtype s)) vs))
      | Raise e => Raise e
      end
  | Column s, Scalar y =>
      match map_outcome (λ x, apply_cell op x y) (values s) with
      | Ok vs => Ok (Column (mk_series (result_dtype (dtype s) (scalar_dtype y)) vs))
      | Raise e => Raise e
      end
  | Column s, Column t =>
      match map_outcome (λ xy, apply_cell op xy.1 xy.2) (zip (values s) (values t)) with
      | Ok vs => Ok (Column (mk_series (result_dtype (dtype s) (dtype t)) vs))
      | Raise e => Raise e
      end
  end.

Fixpoint eval_expr (df : DataFrame) (e : expr) : outcome operand :=
  match e with
  | EName s =>
      match get_column df s with
      | Some col => Ok (Column col)
      | None => Raise (mk_exn NameError [Lit "name '"; FStr s; Lit "' is not defined"])
      end
  | EInt z => Ok (Scalar (CInt z))
  | EDec q => Ok (Scalar (CFloat q))
  | EBin op l r =>
      match eval_expr df l with
      | Raise e => Raise e
      | Ok a => match eval_expr df r with
                | Raise e => Raise e
                | Ok b => apply_operands op a b
                end
      end
  end.

(** [df.eval(text)] as a column of [df]: a scalar fills every row. *)
Definition eval (df : DataFrame) (text : string) : outcome Series :=
  match parse text with
  | None => Raise (mk_exn ValueError [Lit "invalid syntax"])
  | Some e =>
      match eval_expr df e with
      | Raise e => Raise e
      | Ok (Column s) => Ok s
      | Ok (Scalar c) =>
          Ok (mk_series (scalar_dtype c) (replicate (length (index df)) c))
      end
  end.

End ArithEval.

(** ** pandas: conversions, the join on the index, describe *)
Module SimplePandas.

(** [astype] between the integer and floating dtypes, cell by cell: a
    float is truncated towards zero, a string of digits is read as a
    number, a missing value has no integer. *)
Definition truncate (q : Qc) : Z := Z.quot (Qnum (this q)) (Zpos (Qden (this q))).

Definition digits_of (s : string) : option Z :=
  let chars := String.list_ascii_of_string s in
  match chars with
  | [] => None
  | _ => if forallb ArithEval.is_digit chars
         then Some (ArithEval.digits_value chars) else None
  end.

Definition to_int (c : cell) : outcome cell :=
  match c with
  | CInt z => Ok (CInt z)
  | CFloat q => Ok (CInt (truncate q))
  | CBool b => Ok (CInt (if b then 1 else 0))
  | CStr s =>
      match digits_of s with
      | Some z => Ok (CInt z)
      | None => Raise (mk_exn ValueError [Lit "invalid literal for int() with base 10: "; FStr s])
      end
  | CNull => Raise (mk_exn ValueError [Lit "Cannot convert non-finite values (NA or inf) to integer"])
  end.

Definition to_float (c : cell) : outcome cell :=
  match c with
  | CInt z => Ok (CFloat (ArithEval.Z2Qc z))
  | CFloat q => Ok (CFloat q)
  | CBool b => Ok (CFloat (ArithEval.Z2Qc (if b then 1 else 0)))
  | CStr s =>
      match digits_of s with
      | Some z => Ok (CFloat (ArithEval.Z2Qc z))
      | None => Raise (mk_exn ValueError [Lit "could not convert string to float: "; FStr s])
      end
  | CNull => Ok CNull
  end.

Definition astype (s : Series) (target : string) : outcome Series :=
  if ArithEval.is_int_dtype target then
    match ArithEval.map_outcome to_int (values s) with
    | Ok vs => Ok (mk_series target vs)
    | Raise e => Raise e
    end
  else if ArithEval.is_float_dtype target then
    match ArithEval.map_outcome to_float (values s) with
    | Ok vs => Ok (mk_series target vs)
    | Raise e => Raise e
    end
  else Raise (mk_exn TypeError [Lit "data type '"; FStr target; Lit "' not understood"]).

(** The left join on the index.  Every row of [left], in order, is
    paired with each row of [right] that has the same label, or with no
    row when there is none. *)
Fixpoint positions_from (k : label) (idx : list label) (i : nat) : list nat :=
  match idx with
  | [] => []
  | k' :: rest =>
      if decide (k = k') then i :: positions_from k rest (S i)
      else positions_from k rest (S i)
  end.

Fixpoint join_rows (left_idx right_idx : list label) (i : nat) : list (nat * option nat) :=
  match left_idx with
  | [] => []
  | k :: rest =>
      match positions_from k right_idx 0 with
      | [] => [(i, None)]
      | js => map (λ j, (i, Some j)) js
      end ++ join_rows rest right_idx (S i)
  end.

Definition take_left (rows : list (nat * option nat)) (s : Series) : Series :=
  mk_series (dtype s) (map (λ r, default CNull (values s !! r.1)) rows).

(** A column that receives a missing value can no longer be an integer
    or boolean column. *)
Definition take_right (rows : list (nat * option nat)) (s : Series) : Series :=
  if forallb (λ r, bool_decide (is_Some r.2)) rows then
    mk_series (dtype s) (map (λ r, default CNull (j ← r.2; values s !! j)) rows)
  else
    let widen c := if ArithEval.is_int_dtype (dtype s)
                   then match c with CInt z => CFloat (ArithEval.Z2Qc z) | _ => c end
                   else c in
    mk_series (if ArithEval.is_int_dtype (dtype s) then "float64"
               else if decide (dtype s = "bool") then "object" else dtype s)
              (map (λ r, default CNull (j ← r.2; widen <$> values s !! j)) rows).

(** A column label that both frames have gets the side's suffix. *)
Definition with_suffix (others : list string) (suffix : string) (name : string) : string :=
  if decide (name ∈ others) then name +:+ suffix else name.

(** [attrs] of the result: pandas keeps them when both sides have the
    same, and drops them otherwise (this depends on the pandas version;
    no statement below depends on it). *)
Definition merge_on_index (left right : DataFrame) (suffixes : string * string)
  : outcome DataFrame :=
  let rows := join_rows (index left) (index right) 0 in
  Ok {| index := map (λ r, default (LInt 0) (index left !! r.1)) rows;
        data :=
          map (λ cs, (with_suffix (columns right) suffixes.1 cs.1, take_left rows cs.2))
              (data left)
          ++ map (λ cs, (with_suffix (columns left) suffixes.2 cs.1, take_right rows cs.2))
              (data right);
        attrs := if decide (attrs left = attrs right) then attrs left else ∅ |}.

(** The [count] row of [describe()]: the number of values present in
    each column; pandas refuses a frame without columns. *)
Definition describe (df : DataFrame) : outcome (list (string * Z)) :=
  match data df with
  | [] => Raise (mk_exn ValueError [Lit "Cannot describe a DataFrame without columns"])
  | d => Ok (map (λ cs, (cs.1, Z.of_nat (length (values cs.2)) - null_count cs.2)) d)
  end.

End SimplePandas.

#[local] Instance simple_pandas : Pandas := {|
  describe_result := list (string * Z);
  df_eval := ArithEval.eval;
  astype := SimplePandas.astype;
  merge_on_index := SimplePandas.merge_on_index;
  describe := SimplePandas.describe
|}.

(** ** A file table, and YAML block mappings of quoted or plain strings *)
Module MiniYaml.

Definition is_newline (a : ascii) : bool := (nat_of_ascii a =? 10)%nat.

Fixpoint lines_of (fuel : nat) (l : list ascii) : list (list ascii) :=
  match fuel with
  | O => []
  | S fuel =>
      let '(line, rest) := ArithEval.span (λ a, negb (is_newline a)) l in
      match rest with
      | [] => [line]
      | _ :: rest' => line :: lines_of fuel rest'
      end
  end.

Definition strip (l : list ascii) : list ascii :=
  let drop_spaces l := (ArithEval.span ArithEval.is_space l).2 in
  rev (drop_spaces (rev (drop_spaces l))).

(** The text before the first ": " (or a ':' ending the line) and after. *)
Fixpoint split_colon (l : list ascii) : option (list ascii * list ascii) :=
  match l with
  | [] => None
  | a :: rest =>
      if Ascii.eqb a ":" && match rest with
                            | [] => true
                            | b :: _ => Ascii.eqb b " "
                            end
      then Some ([], drop 1 rest)
      else '(k, v) ← split_colon rest; Some (a :: k, v)
  end.

Definition syntax_error {A} : outcome A :=
  Raise (mk_exn YAMLError [Lit "could not parse the document"]).

(** YAML that PyYAML reads and this fragment does not. *)
Definition unsupported {A} : outcome A :=
  Raise (mk_exn NotImplementedError [Lit "YAML outside the modelled fragment"]).

Definition dquote : ascii := ascii_of_nat 34.

(** The character that closes what [a] opens: a flow collection or a
    single-quoted scalar. *)
Definition closer_of (a : ascii) : option ascii :=
  if Ascii.eqb a "[" then Some "]"%char
  else if Ascii.eqb a "{" then Some "}"%char
  else if Ascii.eqb a "'" then Some "'"%char
  else None.

(** A scalar: double-quoted, or plain.  A quote that opens must close at
    the end; a plain scalar holds no ": ".  Flow collections and
    single-quoted scalars are recognised and not read. *)
Definition scalar (l : list ascii) : outcome string :=
  match l with
  | [] => unsupported
  | a :: rest =>
      if decide (a = dquote) then
        match rev rest with
        | b :: inner =>
            if decide (b = dquote) then
              if existsb (λ c, bool_decide (c = dquote)) inner then syntax_error
              else Ok (String.string_of_list_ascii (rev inner))
            else syntax_error
        | [] => syntax_error
        end
      else
        match closer_of a with
        | Some closing =>
            if bool_decide (last rest = Some closing) then unsupported else syntax_error
        | None =>
            match split_colon l with
            | Some _ => syntax_error
            | None => Ok (String.string_of_list_ascii l)
            end
        end
  end.

(** The entries, line by line: a key met again keeps its place and takes
    the later value, as in a Python dict. *)
Fixpoint entries (ls : list (list ascii)) (acc : list (string * string))
  : outcome (list (string * string)) :=
  match ls with
  | [] => Ok acc
  | l :: rest =>
      match split_colon l with
      | None => syntax_error
      | Some (k, v) =>
          match scalar (strip k), scalar (strip v) with
          | Ok k, Ok v => entries rest (assoc_set k v acc)
          | Raise e, _ | _, Raise e => Raise e
          end
      end
  end.

Definition safe_load (text : string) : outcome pyobj :=
  let chars := String.list_ascii_of_string text in
  let ls := filter (λ l, l ≠ []) (strip <$> lines_of (S (length chars)) chars) in
  match ls with
  | [] => Ok (POther "<class 'NoneType'>")
  | [l] =>
      if decide (l = String.list_ascii_of_string "{}") then Ok (PDict [])
      else match split_colon l with
           | None => match scalar l with Ok s => Ok (PStr s) | Raise e => Raise e end
           | Some _ => match entries ls [] with Ok d => Ok (PDict d) | Raise e => Raise e end
           end
  | _ => match entries ls [] with Ok d => Ok (PDict d) | Raise e => Raise e end
  end.

Definition read_text (files : list (string * string)) (path : string) : outcome string :=
  match assoc path files with
  | Some content => Ok content
  | None => Raise (mk_exn FileNotFoundError [Lit "No such file or directory: "; FStr path])
  end.

End MiniYaml.

Definition host_with (files : list (string * string)) : Host := {|
  read_text := MiniYaml.read_text files;
  safe_load := MiniYaml.safe_load
|}.

(** ** ydata-profiling: absent, or present *)
Definition ydata_absent : YData := {|
  report := unit;
  import_ProfileReport :=
    Raise (mk_exn ModuleNotFoundError [Lit "No module named 'ydata_profiling'"])
|}.

(** A report that remembers what it was built from. *)
Definition ydata_present : YData := {|
  report := DataFrame * kwargs;
  import_ProfileReport := Ok (λ obj kw, df ← load obj; mret (df, kw))
|}.

(** ydata-profiling present, with a [ProfileReport] that raises on
    construction. *)
Definition ydata_failing (cls : exc_class) : YData := {|
  report := unit;
  import_ProfileReport := Ok (λ _ _, raise cls [Lit "ProfileReport could not be built"])
|}.

(** ** Schemas *)

(** A schema that validates as pandera does with [inplace=False]: the
    check (and any coercion) runs on a copy, which is returned. *)
Definition copying_schema (check : DataFrame → outcome DataFrame) (description : string) : Schema := {|
  schema_validate := λ obj _,
    c ← copy obj;
    frame ← load c;
    checked ← lift (check frame);
    store c checked;;
    mret c;
  schema_str := description
|}.

(** A schema whose [validate] hands back the object it was given. *)
Definition passthrough_schema (description : string) : Schema := {|
  schema_validate := λ obj _, mret obj;
  schema_str := description
|}.

(** The check of [DataFrameSchema({name: Column(dtype), ...})]. *)
Definition check_dtypes (required : list (string * string)) (df : DataFrame) : outcome DataFrame :=
  if forallb (λ cd, match get_column df cd.1 with
                    | Some s => bool_decide (dtype s = cd.2)
                    | None => false
                    end) required
  then Ok df
  else Raise (mk_exn SchemaError [Lit "schema check failed for "; FList (required.*1)]).

(** ** Example tables (tests/test_accessor.py, examples/basic_usage.py) *)

Definition int_column (zs : list Z) : Series := mk_series "int64" (CInt <$> zs).

Definition float_column (zs : list Z) : Series :=
  mk_series "float64" ((λ z, CFloat (ArithEval.Z2Qc z)) <$> zs).

(** [pd.DataFrame({"a": [1, 2, 3], "b": [4, 5, 6]})] *)
Definition table_ab : DataFrame :=
  mk_df [LInt 0; LInt 1; LInt 2]
        [("a", int_column [1; 2; 3]); ("b", int_column [4; 5; 6])] ∅.

(** [pd.DataFrame({"product": ["A", "B", "C"], "price": [10.0, 20.0, 30.0],
    "quantity": [2, 3, 1]})] *)
Definition table_sales : DataFrame :=
  mk_df [LInt 0; LInt 1; LInt 2]
        [("product", mk_series "object" [CStr "A"; CStr "B"; CStr "C"]);
         ("price", float_column [10; 20; 30]);
         ("quantity", int_column [2; 3; 1])] ∅.

(** [pd.DataFrame({"price": [10, 20, 30]}, index=[0, 1, 2])] and the same
    prices under an index that shares no label with the tables above. *)
Definition table_prices : DataFrame :=
  mk_df [LInt 0; LInt 1; LInt 2] [("price", int_column [10; 20; 30])] ∅.

Definition table_prices_elsewhere : DataFrame :=
  mk_df [LInt 7; LInt 8; LInt 9] [("price", int_column [10; 20; 30])] ∅.



(** [pd.DataFrame()]: no row and no column. *)
Definition table_empty : DataFrame := mk_df [] [] ∅.

(** A world holding the given objects and no warning yet. *)
Definition world_of (objects : list DataFrame) : world := mk_world objects [].

(** The resolver of [test_lookup_with_resolver]:
    [df[dst] = df["a"] * 10; return df]. *)
Definition times_ten_resolver : Resolver := λ df _ dst,
  match dst with
  | DstStr name =>
      frame ← load df;
      column ← lift (ArithEval.eval frame "a * 10");
      setitem df name column;;
      mret df
  | DstList _ => raise TypeError [Lit "unhashable type: 'list'"]
  end.

(** A resolver that answers with its source when that is a table. *)
Definition source_resolver : Resolver := λ df src _,
  match src with
  | SrcTable l => mret l
  | _ => mret df
  end.

(** A resolver that hands back the table it was given. *)
Definition identity_resolver : Resolver := λ df _ _, mret df.

(* ================================================================== *)
(** * Notions used in the statements                                   *)
(* ================================================================== *)

(** The message of the error that wraps a failed evaluation. *)
Definition derivation_failure (col_name expression : string) (e : exn) : exn :=
  mk_exn ValueError
    ([Lit "Failed to derive column '"; FStr col_name;
      Lit "' with expression '"; FStr expression; Lit "': "] ++ exn_msg e).

(** The warning of [cast], when a requested column is absent. *)
Definition cast_warnings (dtype_spec : list (string * string)) (f : DataFrame) : list warning :=
  match filter (λ col, col ∉ columns f) dtype_spec.*1 with
  | [] => []
  | missing_cols =>
      [mk_warning UserWarning
         [Lit "Columns "; FList missing_cols;
          Lit " not found in DataFrame. Available columns: "; FList (columns f);
          Lit ". These columns will be skipped."]]
  end.

(** A run from the world [w] that leaves every object of [w] as it was
    and, when it returns, returns an object that did not exist in [w]. *)
Definition returns_new_object (w : world) (r : outcome loc * world) : Prop :=
  heap w `prefix_of` heap r.2
  ∧ ∀ l', r.1 = Ok l' → (length (heap w) ≤ l' < length (heap r.2))%nat.

(** A schema whose [validate] leaves every existing object as it was and
    returns an object that did not exist before: it works on a copy. *)
Definition validates_on_a_copy (s : Schema) : Prop :=
  ∀ obj lazy w, returns_new_object w (schema_validate s obj lazy w).

(** A number, or a missing value. *)
Definition is_number (c : cell) : Prop :=
  match c with
  | CInt _ | CFloat _ | CNull => True
  | CStr _ | CBool _ => False
  end.

Definition numeric (s : Series) : Prop := Forall is_number (values s).

#[local] Instance example_host : Host :=
  host_with [("derived_columns.yaml", "total: price*quantity")].

#[local] Instance example_ydata : YData := ydata_absent.

(** What C1 says of one call: the caller's object is as it was, whatever
    the outcome, and a result is a table object other than the caller's. *)
Definition new_table_caller_untouched `{!Pandas, !Host, !YData}
    (c : call) (self : loc) (w : world) : Prop :=
  let r := run c self w in
  heap r.2 !! self = heap w !! self
  ∧ ∀ v, r.1 = Ok v → ∃ l', v = VTable l' ∧ l' ≠ self.

(** The calls that work on a copy of their own, or on the copy a
    well-behaved schema makes. *)
Definition works_on_a_copy `{!Pandas, !Host, !YData} (c : call) : Prop :=
  match c with
  | CallValidate schema => validates_on_a_copy (schema_of schema)
  | CallDerive _ | CallCast _ | CallLookup _ _ None _ => True
  | CallLookup _ _ (Some _) _ | CallProfile _ _ _ => False
  end.

(** [pa.DataFrameSchema({"a": pa.Column(int), "b": pa.Column(int)})] *)
Definition ab_schema : Schema :=
  copying_schema (check_dtypes [("a", "int64"); ("b", "int64")])
                 "<Schema DataFrameSchema(a: int64, b: int64)>".





(* ================================================================== *)
(** * Reasoning about computations                                     *)
(* ================================================================== *)

Section Computations.
Context `{!Pandas, !Host, !YData}.

Lemma bind_run {A B} (m : M A) (f : A → M B) (w : world) :
  (m ≫= f) w = match m w with
               | (Ok a, w') => f a w'
               | (Raise e, w') => (Raise e, w')
               end.
Proof. reflexivity. Qed.

Lemma bind_ok_inv {A B} (m : M A) (f : A → M B) (w w2 : world) (b : B) :
  (m ≫= f) w = (Ok b, w2) → ∃ a w1, m w = (Ok a, w1) ∧ f a w1 = (Ok b, w2).
Proof.
  rewrite bind_run. destruct (m w) as [[a|e] w1]; [eauto | discriminate].
Qed.

Lemma load_run (l : loc) (w : world) (df : DataFrame) :
  heap w !! l = Some df → load l w = (Ok df, w).
Proof. intros Hl. unfold load. by rewrite Hl. Qed.

Lemma load_ok_inv (l : loc) (w w' : world) (df : DataFrame) :
  load l w = (Ok df, w') → heap w !! l = Some df ∧ w' = w.
Proof.
  unfold load. destruct (heap w !! l) eqn:Hl; intros [= <- <-]; auto.
Qed.

Lemma store_run (l : loc) (w : world) (old df : DataFrame) :
  heap w !! l = Some old →
  store l df w = (Ok tt, mk_world (<[l := df]> (heap w)) (warnings_log w)).
Proof. intros Hl. unfold store. by rewrite Hl. Qed.

Lemma copy_run (l : loc) (w : world) (df : DataFrame) :
  heap w !! l = Some df →
  copy l w = (Ok (length (heap w)), mk_world (heap w ++ [df]) (warnings_log w)).
Proof. intros Hl. unfold copy. rewrite bind_run, (load_run _ _ _ Hl). reflexivity. Qed.

Lemma copy_ok_inv (l c : loc) (w w' : world) :
  copy l w = (Ok c, w') →
  ∃ df, heap w !! l = Some df ∧ c = length (heap w)
        ∧ w' = mk_world (heap w ++ [df]) (warnings_log w).
Proof.
  unfold copy. rewrite bind_run. unfold load.
  destruct (heap w !! l) as [df|] eqn:Hl; [|discriminate].
  intros [= <- <-]. eauto.
Qed.

Lemma setitem_run (l : loc) (w : world) (df : DataFrame) (col : string) (s : Series) :
  heap w !! l = Some df →
  setitem l col s w
  = (Ok tt, mk_world (<[l := set_column df col s]> (heap w)) (warnings_log w)).
Proof.
  intros Hl. unfold setitem. rewrite bind_run, (load_run _ _ _ Hl).
  by apply store_run with df.
Qed.

Lemma attrs_setitem_run (l : loc) (w : world) (df : DataFrame) (k : string) (v : attr_value) :
  heap w !! l = Some df →
  attrs_setitem l k v w
  = (Ok tt, mk_world (<[l := set_attr df k v]> (heap w)) (warnings_log w)).
Proof.
  intros Hl. unfold attrs_setitem. rewrite bind_run, (load_run _ _ _ Hl).
  by apply store_run with df.
Qed.

(** The object allocated last, and the objects before it. *)
Lemma lookup_last (h : list DataFrame) (df : DataFrame) :
  (h ++ [df]) !! length h = Some df.
Proof. by rewrite lookup_app_r, Nat.sub_diag. Qed.

Lemma insert_last (h : list DataFrame) (df df' : DataFrame) :
  <[length h := df']> (h ++ [df]) = h ++ [df'].
Proof. by rewrite insert_app_r_alt, Nat.sub_diag. Qed.

Lemma lookup_old (h : list DataFrame) (df d : DataFrame) (k : loc) :
  h !! k = Some d → (h ++ [df]) !! k = Some d.
Proof. intros Hk. by apply lookup_app_l_Some. Qed.

End Computations.

(* ================================================================== *)
(** * derive                                                           *)
(* ================================================================== *)

Section Derive.
Context `{!Pandas, !Host, !YData}.

(** One turn of the loop: the expression is evaluated on the object as it
    is at that moment, and the column is assigned on it. *)
Lemma derive_entries_cons_ok col e rest (c : loc) (w : world) (f : DataFrame) (s : Series) :
  heap w !! c = Some f →
  df_eval f e = Ok s →
  derive_entries ((col, e) :: rest) c w
  = derive_entries rest c (mk_world (<[c := set_column f col s]> (heap w)) (warnings_log w)).
Proof.
  intros Hc He. cbn [derive_entries]. rewrite bind_run.
  unfold try_except. rewrite bind_run, (load_run _ _ _ Hc), bind_run.
  unfold lift at 1. rewrite He, (setitem_run _ _ _ _ _ Hc). reflexivity.
Qed.

Lemma derive_entries_cons_raise col e rest (c : loc) (w : world) (f : DataFrame) (ex : exn) :
  heap w !! c = Some f →
  df_eval f e = Raise ex →
  derive_entries ((col, e) :: rest) c w
  = (Raise (if isinstance_exn ex Exception then derivation_failure col e ex else ex), w).
Proof.
  intros Hc He. cbn [derive_entries]. rewrite bind_run.
  unfold try_except. rewrite bind_run, (load_run _ _ _ Hc), bind_run.
  unfold lift at 1. rewrite He. cbn [existsb]. rewrite orb_false_r.
  destruct (isinstance_exn ex Exception); reflexivity.
Qed.

(** The loop over a mapping is the loop over its first entries followed by
    the loop over the rest. *)
Lemma derive_entries_app es1 es2 (c : loc) (w : world) :
  derive_entries (es1 ++ es2) c w
  = (derive_entries es1 c ;; derive_entries es2 c) w.
Proof.
  revert w. induction es1 as [|[col e] es1 IH]; intros w; cbn [derive_entries app].
  - reflexivity.
  - rewrite !bind_run.
    destruct (try_except _ _ _ w) as [[[]|ex] w1]; [|reflexivity].
    rewrite IH. reflexivity.
Qed.

(** Whatever the loop does, it does to the object it was given: the other
    objects, the object's index and [attrs], and the warnings stay. *)
Lemma derive_entries_effect es (c : loc) (w w' : world) (f : DataFrame) (o : outcome unit) :
  heap w !! c = Some f →
  derive_entries es c w = (o, w') →
  ∃ f', w' = mk_world (<[c := f']> (heap w)) (warnings_log w)
        ∧ attrs f' = attrs f ∧ index f' = index f.
Proof.
  revert w f. induction es as [|[col e] es IH]; intros w f Hc Hrun.
  - cbn in Hrun. injection Hrun as <- <-. exists f.
    rewrite list_insert_id by done. by destruct w.
  - destruct (df_eval f e) as [s|ex] eqn:He.
    + rewrite (derive_entries_cons_ok _ _ _ _ _ _ _ Hc He) in Hrun.
      apply IH with (f := set_column f col s) in Hrun as (f' & -> & Ha & Hi).
      * exists f'. cbn. rewrite list_insert_insert_eq. auto.
      * cbn. apply list_lookup_insert_eq. by eapply lookup_lt_Some.
    + rewrite (derive_entries_cons_raise _ _ _ _ _ _ _ Hc He) in Hrun.
      injection Hrun as <- <-. exists f.
      rewrite list_insert_id by done. by destruct w.
Qed.

(** An empty mapping leaves the world as it is. *)
Lemma derive_entries_nil (c : loc) (w : world) : derive_entries [] c w = (Ok tt, w).
Proof. reflexivity. Qed.

(** Resolving the specification reads the file system and has no effect
    on the world. *)
Lemma resolve_spec_pure (spec : pyobj) :
  ∃ o, ∀ w, resolve_spec spec w = (o, w).
Proof.
  destruct spec as [text|d|n]; cbn; try by eexists.
  unfold try_except, lift. setoid_rewrite bind_run.
  destruct (read_text text) as [content|e].
  - destruct (safe_load content) as [v|e]; [by eexists|].
    destruct (existsb _ _); [|by eexists].
    destruct (safe_load text) as [v|e']; [by eexists|].
    destruct (existsb _ _); by eexists.
  - destruct (existsb _ _); [|by eexists].
    destruct (safe_load text) as [v|e']; [by eexists|].
    destruct (existsb _ _); by eexists.
Qed.

Lemma items_pure (v : pyobj) : ∃ o, ∀ w, items v w = (o, w).
Proof. destruct v; by eexists. Qed.

Lemma items_ok_inv (v : pyobj) (d : list (string * string)) (w w' : world) :
  items v w = (Ok d, w') → v = PDict d ∧ w' = w.
Proof. destruct v; cbn; intros [= <- <-] || discriminate; auto. Qed.

(** What a call of [derive] that returns has done: the result is a new
    object, allocated after all the objects of the caller's world; it is
    the caller's table with columns assigned, the same index, and the
    caller's [attrs] with the two derivation keys set. *)
Lemma derive_ok_inv (spec : pyobj) (self l' : loc) (w w' : world) :
  derive spec self w = (Ok l', w') →
  ∃ f f' d,
    heap w !! self = Some f
    ∧ resolve_spec spec w = (Ok (PDict d), w)
    ∧ l' = length (heap w)
    ∧ w' = mk_world (heap w ++ [f']) (warnings_log w)
    ∧ index f' = index f
    ∧ attrs f' = <["enrich_derivations" := ADict d]>
                   (<["enrich_derived" := ABool true]> (attrs f)).
Proof.
  unfold derive. intros Hrun.
  apply bind_ok_inv in Hrun as (c & w1 & Hcopy & Hrun).
  apply copy_ok_inv in Hcopy as (f & Hself & -> & ->).
  apply bind_ok_inv in Hrun as (v & w2 & Hres & Hrun).
  destruct (resolve_spec_pure spec) as [o Ho]. rewrite Ho in Hres.
  injection Hres as -> <-.
  apply bind_ok_inv in Hrun as (d & w3 & Hitems & Hrun).
  apply items_ok_inv in Hitems as [-> ->].
  apply bind_ok_inv in Hrun as ([] & w4 & Hloop & Hrun).
  eapply derive_entries_effect in Hloop as (f1 & -> & Ha & Hi);
    [|apply lookup_last].
  cbn in Hrun. rewrite insert_last in Hrun.
  rewrite bind_run, (attrs_setitem_run _ _ f1) in Hrun by apply lookup_last.
  cbn in Hrun. rewrite insert_last in Hrun.
  rewrite bind_run, (attrs_setitem_run _ _ (set_attr f1 _ _)) in Hrun by apply lookup_last.
  cbn in Hrun. rewrite insert_last in Hrun.
  injection Hrun as <- <-.
  eexists f, _, d. split_and!; try done.
  cbn. by rewrite Ha.
Qed.

End Derive.

(* ================================================================== *)
(** * cast                                                             *)
(* ================================================================== *)

Section Cast.
Context `{!Pandas, !Host, !YData}.

Lemma assoc_set_eq {V} (k : string) (v : V) (l : list (string * V)) :
  assoc k (assoc_set k v l) = Some v.
Proof.
  induction l as [|[k' v'] l IH]; cbn.
  - by rewrite decide_True.
  - destruct (decide (k = k')) as [->|Hne]; cbn.
    + by rewrite decide_True.
    + by rewrite decide_False.
Qed.

Lemma assoc_set_ne {V} (k k' : string) (v : V) (l : list (string * V)) :
  k ≠ k' → assoc k' (assoc_set k v l) = assoc k' l.
Proof.
  intros Hne. induction l as [|[k'' v''] l IH]; cbn.
  - by rewrite decide_False.
  - destruct (decide (k = k'')) as [->|Hne']; cbn.
    + by rewrite !decide_False.
    + destruct (decide (k' = k'')); auto.
Qed.

Lemma assoc_set_keys {V} (k : string) (v : V) (l : list (string * V)) :
  is_Some (assoc k l) → (assoc_set k v l).*1 = l.*1.
Proof.
  induction l as [|[k' v'] l IH]; cbn.
  - by intros [? [=]].
  - destruct (decide (k = k')) as [->|Hne]; cbn; [done|].
    intros Hs. by rewrite IH.
Qed.

Lemma assoc_None {V} (k : string) (l : list (string * V)) :
  assoc k l = None ↔ k ∉ l.*1.
Proof.
  induction l as [|[k' v'] l IH]; cbn.
  - split; [intros _; apply not_elem_of_nil | done].
  - rewrite not_elem_of_cons. destruct (decide (k = k')) as [->|Hne].
    + split; [discriminate | by intros [? _]].
    + rewrite IH. tauto.
Qed.

Lemma assoc_Some_columns {V} (k : string) (v : V) (l : list (string * V)) :
  assoc k l = Some v → k ∈ l.*1.
Proof.
  intros Hk. destruct (decide (k ∈ l.*1)) as [|Hn]; [done|].
  apply assoc_None in Hn. congruence.
Qed.

(** One turn of the loop on a column that is present, and on one that is
    not. *)
Lemma cast_entries_cons_present col dt rest (c : loc) (w : world) (f : DataFrame) (s s' : Series) :
  heap w !! c = Some f →
  get_column f col = Some s →
  astype s dt = Ok s' →
  cast_entries ((col, dt) :: rest) c w
  = cast_entries rest c (mk_world (<[c := set_column f col s']> (heap w)) (warnings_log w)).
Proof.
  intros Hc Hcol Hconv. cbn [cast_entries].
  rewrite bind_run, (load_run _ _ _ Hc). cbv beta iota.
  rewrite bind_run, Hcol, bind_run.
  unfold lift at 1. rewrite Hconv, (setitem_run _ _ _ _ _ Hc). reflexivity.
Qed.

Lemma cast_entries_cons_raise col dt rest (c : loc) (w : world) (f : DataFrame) (s : Series) (e : exn) :
  heap w !! c = Some f →
  get_column f col = Some s →
  astype s dt = Raise e →
  cast_entries ((col, dt) :: rest) c w = (Raise e, w).
Proof.
  intros Hc Hcol Hconv. cbn [cast_entries].
  rewrite bind_run, (load_run _ _ _ Hc). cbv beta iota.
  rewrite bind_run, Hcol, bind_run.
  unfold lift at 1. rewrite Hconv. reflexivity.
Qed.

Lemma cast_entries_cons_absent col dt rest (c : loc) (w : world) (f : DataFrame) :
  heap w !! c = Some f →
  get_column f col = None →
  cast_entries ((col, dt) :: rest) c w = cast_entries rest c w.
Proof.
  intros Hc Hcol. cbn [cast_entries].
  rewrite bind_run, (load_run _ _ _ Hc). cbv beta iota.
  rewrite bind_run, Hcol. reflexivity.
Qed.

(** Whatever the loop does, it does to the object it was given, and it
    neither adds nor removes a column. *)
Lemma cast_entries_effect es (c : loc) (w w' : world) (f : DataFrame) (o : outcome unit) :
  heap w !! c = Some f →
  cast_entries es c w = (o, w') →
  ∃ f', w' = mk_world (<[c := f']> (heap w)) (warnings_log w)
        ∧ attrs f' = attrs f ∧ index f' = index f ∧ columns f' = columns f.
Proof.
  revert w f. induction es as [|[col dt] es IH]; intros w f Hc Hrun.
  - cbn in Hrun. injection Hrun as <- <-. exists f.
    rewrite list_insert_id by done. by destruct w.
  - destruct (get_column f col) as [s|] eqn:Hcol.
    + destruct (astype s dt) as [s'|e] eqn:Hconv.
      * rewrite (cast_entries_cons_present _ _ _ _ _ _ _ _ Hc Hcol Hconv) in Hrun.
        apply IH with (f := set_column f col s') in Hrun as (f' & -> & Ha & Hi & Hcols).
        -- exists f'. cbn. rewrite list_insert_insert_eq. split_and!; try done.
           rewrite Hcols. unfold columns. cbn. apply assoc_set_keys. by exists s.
        -- cbn. apply list_lookup_insert_eq. by eapply lookup_lt_Some.
      * rewrite (cast_entries_cons_raise _ _ _ _ _ _ _ _ Hc Hcol Hconv) in Hrun.
        injection Hrun as <- <-. exists f.
        rewrite list_insert_id by done. by destruct w.
    + rewrite (cast_entries_cons_absent _ _ _ _ _ _ Hc Hcol) in Hrun. eauto.
Qed.

(** When every conversion that is attempted succeeds, the loop returns:
    each requested column that is present holds the conversion of what
    the caller's column held, and every other column is as it was.  A
    Python dict has no key twice. *)
Lemma cast_entries_ok es (c : loc) (w : world) (f : DataFrame) :
  heap w !! c = Some f →
  NoDup es.*1 →
  (∀ col dt s, (col, dt) ∈ es → get_column f col = Some s → is_ok (astype s dt)) →
  ∃ f', cast_entries es c w = (Ok tt, mk_world (<[c := f']> (heap w)) (warnings_log w))
        ∧ (∀ col dt s, (col, dt) ∈ es → get_column f col = Some s →
             ∃ s', astype s dt = Ok s' ∧ get_column f' col = Some s')
        ∧ (∀ col, col ∉ es.*1 → get_column f' col = get_column f col).
Proof.
  revert w f. induction es as [|[col dt] es IH]; intros w f Hc Hnd Hconv.
  - exists f. cbn. rewrite list_insert_id by done. destruct w. split_and!; try done.
    intros ??? Hin. by apply elem_of_nil in Hin.
  - apply NoDup_cons in Hnd as [Hfresh Hnd]. cbn in Hfresh.
    destruct (get_column f col) as [s|] eqn:Hcol.
    + pose proof (Hconv col dt s (list_elem_of_here _ _) Hcol) as Hok.
      destruct (astype s dt) as [s1|] eqn:Hs1; [clear Hok|done].
      rewrite (cast_entries_cons_present _ _ _ _ _ _ _ _ Hc Hcol Hs1).
      set (f1 := set_column f col s1).
      assert (Hother : ∀ k, k ≠ col → get_column f1 k = get_column f k).
      { intros k Hk. unfold get_column, f1. cbn. by apply assoc_set_ne. }
      destruct (IH (mk_world (<[c := f1]> (heap w)) (warnings_log w)) f1)
        as (f' & Hrun & Hconverted & Hrest).
      * cbn. apply list_lookup_insert_eq. by eapply lookup_lt_Some.
      * done.
      * intros k dt' s' Hin Hk. rewrite Hother in Hk.
        -- eapply Hconv; [by apply list_elem_of_further|done].
        -- intros ->. apply Hfresh. apply list_elem_of_fmap. by exists (col, dt').
      * exists f'. rewrite Hrun. cbn. rewrite list_insert_insert_eq. split_and!; [done| |].
        -- intros k dt' s' Hin Hk. apply elem_of_cons in Hin as [[= -> ->]|Hin].
           ++ exists s1. rewrite Hcol in Hk. injection Hk as <-. split; [done|].
              rewrite Hrest by done. unfold get_column, f1. cbn. apply assoc_set_eq.
           ++ apply (Hconverted k dt' s' Hin). rewrite Hother; [done|].
              intros ->. apply Hfresh. apply list_elem_of_fmap. by exists (col, dt').
        -- intros k Hk. cbn in Hk. apply not_elem_of_cons in Hk as [Hne Hk].
           rewrite Hrest by done. by apply Hother.
    + rewrite (cast_entries_cons_absent _ _ _ _ _ _ Hc Hcol).
      destruct (IH w f) as (f' & Hrun & Hconverted & Hrest); [done..| |].
      * intros k dt' s' Hin. eapply Hconv. by apply list_elem_of_further.
      * exists f'. split_and!; [done| |].
        -- intros k dt' s' Hin Hk. apply elem_of_cons in Hin as [[= -> ->]|Hin].
           ++ congruence.
           ++ by apply (Hconverted k dt' s').
        -- intros k Hk. cbn in Hk. apply not_elem_of_cons in Hk as [_ Hk]. by apply Hrest.
Qed.

Lemma cast_run (dtype_spec : list (string * string)) (self : loc) (w : world) (f : DataFrame) :
  heap w !! self = Some f →
  cast dtype_spec self w
  = (cast_entries dtype_spec (length (heap w));;
     attrs_setitem (length (heap w)) "enrich_cast" (ABool true);;
     attrs_setitem (length (heap w)) "enrich_dtypes" (ADict dtype_spec);;
     mret (length (heap w)))
      (mk_world (heap w ++ [f]) (warnings_log w ++ cast_warnings dtype_spec f)).
Proof.
  intros Hself. unfold cast.
  rewrite bind_run, (copy_run _ _ _ Hself). cbv beta iota.
  rewrite bind_run, (load_run _ _ f) by apply lookup_last. cbv beta iota zeta.
  rewrite bind_run. unfold cast_warnings.
  destruct (filter _ _) as [|m ms]; cbn.
  - by rewrite app_nil_r.
  - reflexivity.
Qed.

(** What a call of [cast] has done, whatever its outcome. *)
Lemma cast_effect (dtype_spec : list (string * string)) (self : loc) (w w' : world) (o : outcome loc) :
  cast dtype_spec self w = (o, w') →
  (heap w !! self = None ∧ w' = w ∧ o = Raise (mk_exn InvalidReference []))
  ∨ ∃ f f', heap w !! self = Some f
            ∧ w' = mk_world (heap w ++ [f']) (warnings_log w ++ cast_warnings dtype_spec f)
            ∧ index f' = index f ∧ columns f' = columns f
            ∧ ∀ l', o = Ok l' →
                l' = length (heap w)
                ∧ attrs f' = <["enrich_dtypes" := ADict dtype_spec]>
                               (<["enrich_cast" := ABool true]> (attrs f)).
Proof.
  destruct (heap w !! self) as [f|] eqn:Hself.
  - rewrite (cast_run _ _ _ _ Hself). intros Hrun. right. exists f.
    rewrite bind_run in Hrun.
    destruct (cast_entries _ _ _) as [o1 w1] eqn:Hloop.
    eapply cast_entries_effect in Hloop as (f1 & -> & Ha & Hi & Hcols);
      [|apply lookup_last].
    cbn in Hrun. rewrite insert_last in Hrun. destruct o1 as [[]|e].
    + rewrite bind_run, (attrs_setitem_run _ _ f1) in Hrun by apply lookup_last.
      cbn in Hrun. rewrite insert_last in Hrun.
      rewrite bind_run, (attrs_setitem_run _ _ (set_attr f1 _ _)) in Hrun
        by apply lookup_last.
      cbn in Hrun. rewrite insert_last in Hrun. injection Hrun as <- <-.
      eexists. split_and!; try done.
      intros l' [= <-]. split; [done|]. cbn. by rewrite Ha.
    + injection Hrun as <- <-. exists f1. split_and!; try done.
  - unfold cast. rewrite bind_run. unfold copy. rewrite bind_run. unfold load.
    rewrite Hself. intros [= <- <-]. by left.
Qed.

End Cast.

(* ================================================================== *)
(** * New objects and old objects                                      *)
(* ================================================================== *)

Section Freshness.
Context `{!Pandas, !Host, !YData}.

Lemma prefix_of_insert_app (h t : list DataFrame) (k : nat) (x : DataFrame) :
  (length h ≤ k)%nat → h `prefix_of` <[k := x]> (h ++ t).
Proof.
  intros Hk. rewrite insert_app_r_alt by done. by apply prefix_app_r.
Qed.

Lemma derive_effect (spec : pyobj) (self : loc) (w w' : world) (o : outcome loc) :
  derive spec self w = (o, w') →
  (heap w !! self = None ∧ w' = w ∧ o = Raise (mk_exn InvalidReference []))
  ∨ ∃ f f', heap w !! self = Some f
            ∧ w' = mk_world (heap w ++ [f']) (warnings_log w)
            ∧ index f' = index f.
Proof.
  destruct (heap w !! self) as [f|] eqn:Hself.
  - intros Hrun. right. exists f. unfold derive in Hrun.
    rewrite bind_run, (copy_run _ _ _ Hself) in Hrun. cbv beta iota in Hrun.
    rewrite bind_run in Hrun.
    destruct (resolve_spec_pure spec) as [o1 Ho1]. rewrite Ho1 in Hrun.
    destruct o1 as [v|e]; [|injection Hrun as <- <-; by exists f].
    rewrite bind_run in Hrun.
    destruct (items_pure v) as [o2 Ho2]. rewrite Ho2 in Hrun.
    destruct o2 as [d|e]; [|injection Hrun as <- <-; by exists f].
    rewrite bind_run in Hrun.
    destruct (derive_entries _ _ _) as [o3 w3] eqn:Hloop.
    eapply derive_entries_effect in Hloop as (f1 & -> & Ha & Hi);
      [|apply lookup_last].
    cbn in Hrun. rewrite insert_last in Hrun. destruct o3 as [[]|e].
    + rewrite bind_run, (attrs_setitem_run _ _ f1) in Hrun by apply lookup_last.
      cbn in Hrun. rewrite insert_last in Hrun.
      rewrite bind_run, (attrs_setitem_run _ _ (set_attr f1 _ _)) in Hrun
        by apply lookup_last.
      cbn in Hrun. rewrite insert_last in Hrun. injection Hrun as <- <-.
      by eexists.
    + injection Hrun as <- <-. by exists f1.
  - unfold derive. rewrite bind_run. unfold copy. rewrite bind_run. unfold load.
    rewrite Hself. intros [= <- <-]. by left.
Qed.

Lemma derive_new_object (spec : pyobj) (self : loc) (w : world) :
  returns_new_object w (derive spec self w).
Proof.
  destruct (derive spec self w) as [o w'] eqn:Hrun. split; cbn.
  - apply derive_effect in Hrun as [(_ & -> & _)|(f & f' & _ & -> & _)]; cbn.
    + done.
    + by apply prefix_app_r.
  - intros l' ->. apply derive_ok_inv in Hrun as (f & f' & d & _ & _ & -> & -> & _).
    cbn. rewrite length_app. cbn. lia.
Qed.

Lemma cast_new_object (dtype_spec : list (string * string)) (self : loc) (w : world) :
  returns_new_object w (cast dtype_spec self w).
Proof.
  destruct (cast dtype_spec self w) as [o w'] eqn:Hrun. split; cbn.
  - apply cast_effect in Hrun as [(_ & -> & _)|(f & f' & _ & -> & _)]; cbn.
    + done.
    + by apply prefix_app_r.
  - intros l' ->. apply cast_effect in Hrun as [(_ & _ & [=])|(f & f' & _ & -> & _ & _ & Hok)].
    destruct (Hok l' eq_refl) as [-> _]. cbn. rewrite length_app. cbn. lia.
Qed.

Lemma apply_on_missing_effect (on_missing : string) (n : Z) (dst : list string)
    (w w' : world) (o : outcome unit) :
  apply_on_missing on_missing n dst w = (o, w') → heap w' = heap w.
Proof.
  unfold apply_on_missing. repeat case_decide; by intros [= <- <-].
Qed.

(** What a call of [lookup] without a resolver has done, whatever its
    outcome: it has added objects (the copy, and the result of the join),
    and a result is the second of them. *)
Lemma lookup_effect (src : source) (dst : dst_arg) (on_missing : string)
    (self : loc) (w w' : world) (o : outcome loc) :
  lookup src dst None on_missing self w = (o, w') →
  ∃ added, heap w' = heap w ++ added
           ∧ ∀ l', o = Ok l' → l' = S (length (heap w)) ∧ length added = 2%nat.
Proof.
  unfold lookup. rewrite bind_run.
  destruct (heap w !! self) as [f|] eqn:Hself.
  2:{ unfold copy. rewrite bind_run. unfold load. rewrite Hself.
      intros [= <- <-]. exists []. by rewrite app_nil_r. }
  rewrite (copy_run _ _ _ Hself). cbv beta iota.
  set (w1 := mk_world (heap w ++ [f]) (warnings_log w)).
  assert (Hstop : ∀ e, ∃ added, heap w1 = heap w ++ added
            ∧ ∀ l', @Raise loc e = Ok l' → l' = S (length (heap w)) ∧ length added = 2%nat).
  { intros e. exists [f]. done. }
  rewrite bind_run. destruct src as [src_l|s|n]; cbn -[w1].
  2,3: intros [= <- <-]; apply Hstop.
  rewrite bind_run. unfold load at 1.
  destruct (heap w1 !! src_l) as [sf|]; [|intros [= <- <-]; apply Hstop].
  cbv beta iota zeta.
  destruct (filter _ (as_list dst)) as [|m ms]; [|intros [= <- <-]; apply Hstop].
  rewrite bind_run, (load_run _ w1 f) by apply lookup_last. cbv beta iota.
  rewrite bind_run. unfold lift at 1.
  destruct (select_columns sf _) as [right|e]; [|intros [= <- <-]; apply Hstop].
  cbv beta iota. rewrite bind_run. unfold lift at 1.
  destruct (merge_on_index f right _) as [merged|e]; [|intros [= <- <-]; apply Hstop].
  cbv beta iota. rewrite bind_run. unfold alloc at 1. cbv beta iota.
  set (w2 := mk_world (heap w1 ++ [merged]) (warnings_log w1)).
  rewrite bind_run. unfold lift at 1.
  destruct (select_columns merged _) as [selected|e].
  2:{ intros [= <- <-]. exists [f; merged]. cbn. by rewrite <-(assoc_L (++)). }
  cbv beta iota zeta. rewrite bind_run.
  destruct (apply_on_missing _ _ _ w2) as [[[]|e] w3] eqn:Hpolicy;
    apply apply_on_missing_effect in Hpolicy.
  2:{ intros [= <- <-]. exists [f; merged]. rewrite Hpolicy. cbn.
      by rewrite <-(assoc_L (++)). }
  unfold mret, M_ret. cbv beta iota.
  rewrite bind_run, (attrs_setitem_run _ w3 merged)
    by (rewrite Hpolicy; apply lookup_last).
  cbn -[w1]. intros [= <- <-]. cbn -[w1]. rewrite Hpolicy. cbn -[w1].
  rewrite insert_last. exists [f; set_attr merged "enrich_lookup" (ABool true)].
  cbn. rewrite <-(assoc_L (++)). split; [done|].
  intros l' [= <-]. rewrite length_app. cbn. split; [lia|done].
Qed.

Lemma lookup_new_object (src : source) (dst : dst_arg) (on_missing : string)
    (self : loc) (w : world) :
  returns_new_object w (lookup src dst None on_missing self w).
Proof.
  destruct (lookup src dst None on_missing self w) as [o w'] eqn:Hrun.
  apply lookup_effect in Hrun as (added & Hheap & Hok). split; cbn.
  - rewrite Hheap. by apply prefix_app_r.
  - intros l' Hl'. destruct (Hok l' Hl') as [-> Hlen].
    rewrite Hheap, length_app, Hlen. lia.
Qed.

End Freshness.

(* ================================================================== *)
(** * validate, lookup and profile, step by step                       *)
(* ================================================================== *)

Section Steps.
Context `{!Pandas, !Host, !YData}.

(** What a call of [validate] that returns has done: the schema's
    [validate] returned an object, and the two provenance keys were set on
    that object. *)
Lemma validate_ok_inv (schema : schema_arg) (self l' : loc) (w w' : world) :
  validate schema self w = (Ok l', w') →
  ∃ w1 f1,
    schema_validate (schema_of schema) self false w = (Ok l', w1)
    ∧ heap w1 !! l' = Some f1
    ∧ w' = mk_world
             (<[l' := set_attr (set_attr f1 "enrich_validated" (ABool true))
                               "enrich_schema" (AStr (schema_str (schema_of schema)))]>
                (heap w1))
             (warnings_log w1).
Proof.
  unfold validate. fold (schema_of schema). intros Hrun.
  apply bind_ok_inv in Hrun as (l1 & w1 & Hschema & Hrun).
  apply bind_ok_inv in Hrun as ([] & w2 & Hset1 & Hrun).
  apply bind_ok_inv in Hrun as ([] & w3 & Hset2 & Hrun).
  injection Hrun as <- <-.
  unfold attrs_setitem in Hset1.
  apply bind_ok_inv in Hset1 as (f1 & w1' & Hload & Hstore).
  apply load_ok_inv in Hload as [Hl1 ->].
  rewrite (store_run _ _ f1) in Hstore by done. injection Hstore as <-.
  rewrite (attrs_setitem_run _ _ (set_attr f1 "enrich_validated" (ABool true))) in Hset2.
  - injection Hset2 as <-. cbn. rewrite list_insert_insert_eq. by exists w1, f1.
  - cbn. apply list_lookup_insert_eq. by eapply lookup_lt_Some.
Qed.

Lemma validate_new_object (schema : schema_arg) (self : loc) (w : world) :
  validates_on_a_copy (schema_of schema) →
  returns_new_object w (validate schema self w).
Proof.
  intros Hcopy. destruct (validate schema self w) as [o w'] eqn:Hrun.
  destruct o as [l'|e].
  - apply validate_ok_inv in Hrun as (w1 & f1 & Hschema & Hl' & ->).
    destruct (Hcopy self false w) as [[t Hpre] Hnew]. rewrite Hschema in Hpre, Hnew.
    cbn in Hpre, Hnew. destruct (Hnew l' eq_refl) as [Hge Hlt].
    split; cbn.
    + rewrite Hpre. by apply prefix_of_insert_app.
    + intros ? [= <-]. by rewrite length_insert.
  - unfold validate in Hrun. fold (schema_of schema) in Hrun.
    destruct (Hcopy self false w) as [Hpre Hnew].
    rewrite bind_run in Hrun.
    destruct (schema_validate _ _ _ _) as [[l1|e1] w1] eqn:Hschema.
    + cbn in Hpre, Hnew. destruct (Hnew l1 eq_refl) as [Hge Hlt].
      destruct (lookup_lt_is_Some_2 (heap w1) l1 Hlt) as [f1 Hl1].
      rewrite bind_run, (attrs_setitem_run _ _ _ _ _ Hl1) in Hrun. cbv beta iota in Hrun.
      rewrite bind_run, (attrs_setitem_run _ _ (set_attr f1 "enrich_validated" (ABool true)))
        in Hrun; [discriminate|].
      cbn. apply list_lookup_insert_eq. by eapply lookup_lt_Some.
    + injection Hrun as <- <-. split; [done|]. by intros.
Qed.

(** pandera's way of validating is one such schema. *)
Lemma copying_schema_on_a_copy (check : DataFrame → outcome DataFrame) (description : string) :
  validates_on_a_copy (copying_schema check description).
Proof.
  intros obj lazy w. cbn. rewrite bind_run.
  destruct (heap w !! obj) as [f|] eqn:Hobj.
  - rewrite (copy_run _ _ _ Hobj). cbv beta iota.
    rewrite bind_run, (load_run _ _ f) by apply lookup_last. cbv beta iota.
    rewrite bind_run. unfold lift at 1. destruct (check f) as [checked|e].
    + cbv beta iota. rewrite bind_run, (store_run _ _ f) by apply lookup_last.
      cbn. rewrite insert_last. split; cbn.
      * by apply prefix_app_r.
      * intros ? [= <-]. rewrite length_app. cbn. lia.
    + cbn. split; cbn; [by apply prefix_app_r | by intros].
  - unfold copy. rewrite bind_run. unfold load. rewrite Hobj. cbn.
    split; [done | by intros].
Qed.

(** ** lookup *)

(** With a resolver: the copy is made, and the rest is the resolver's. *)
Lemma lookup_resolver_run (resolve : Resolver) (src : source) (dst : dst_arg)
    (on_missing : string) (self : loc) (w : world) (f : DataFrame) :
  heap w !! self = Some f →
  lookup src dst (Some resolve) on_missing self w
  = resolve (length (heap w)) src dst (mk_world (heap w ++ [f]) (warnings_log w)).
Proof.
  intros Hself. unfold lookup. by rewrite bind_run, (copy_run _ _ _ Hself).
Qed.

(** Every requested column is in the source: the selection [src[dst]]
    succeeds. *)
Lemma select_data_ok (d : list (string * Series)) (cols : list string) :
  filter (λ col, col ∉ d.*1) cols = [] → is_ok (select_data d cols).
Proof.
  induction cols as [|c cols IH]; [done|].
  rewrite filter_cons. destruct (decide (c ∉ d.*1)) as [|Hin]; [done|].
  intros Hrest. cbn. destruct (assoc c d) as [s|] eqn:Hc.
  - specialize (IH Hrest). by destruct (select_data d cols).
  - apply assoc_None in Hc. done.
Qed.

Lemma select_columns_ok (df : DataFrame) (cols : list string) :
  filter (λ col, col ∉ columns df) cols = [] → is_ok (select_columns df cols).
Proof.
  intros Hpresent. unfold select_columns.
  pose proof (select_data_ok (data df) cols Hpresent) as Hok.
  by destruct (select_data (data df) cols).
Qed.









(** ** profile *)




End Steps.

(* ================================================================== *)
(** * The arithmetic evaluator on columns of numbers                   *)
(* ================================================================== *)

Section Numbers.

Lemma apply_cell_numbers (op : ArithEval.binop) (a b : cell) :
  is_number a → is_number b →
  ∃ c, ArithEval.apply_cell op a b = Ok c ∧ is_number c.
Proof. destruct a, b; cbn; intros [] []; by eexists. Qed.

Lemma map_outcome_numbers {A} (g : A → outcome cell) (l : list A) :
  Forall (λ a, ∃ c, g a = Ok c ∧ is_number c) l →
  ∃ cs, ArithEval.map_outcome g l = Ok cs ∧ Forall is_number cs.
Proof.
  induction 1 as [|a l (c & Hc & Hn) _ (cs & Hcs & Hns)]; cbn.
  - by exists [].
  - rewrite Hc, Hcs. exists (c :: cs). by split; [|constructor].
Qed.

Lemma columns_product_numbers (op : ArithEval.binop) (p q : Series) :
  numeric p → numeric q →
  ∃ s, ArithEval.apply_operands op (ArithEval.Column p) (ArithEval.Column q)
       = Ok (ArithEval.Column s) ∧ numeric s.
Proof.
  intros Hp Hq. cbn.
  destruct (map_outcome_numbers (λ xy, ArithEval.apply_cell op xy.1 xy.2)
              (zip (values p) (values q))) as (cs & -> & Hcs).
  - unfold numeric in Hp, Hq. revert Hq. generalize (values q).
    induction Hp as [|a l Ha _ IH]; intros [|b l'] Hq; cbn; try constructor.
    + apply apply_cell_numbers; [done|]. by inversion Hq.
    + apply IH. by inversion Hq.
  - by eexists.
Qed.

Lemma column_scalar_numbers (op : ArithEval.binop) (p : Series) (c : cell) :
  numeric p → is_number c →
  ∃ s, ArithEval.apply_operands op (ArithEval.Column p) (ArithEval.Scalar c)
       = Ok (ArithEval.Column s) ∧ numeric s.
Proof.
  intros Hp Hc. cbn.
  destruct (map_outcome_numbers (λ x, ArithEval.apply_cell op x c) (values p))
    as (cs & -> & Hcs).
  - eapply Forall_impl; [exact Hp|]. intros a Ha. by apply apply_cell_numbers.
  - by eexists.
Qed.

Lemma parse_price_times_quantity :
  ArithEval.parse "price*quantity"
  = Some (ArithEval.EBin ArithEval.Mul (ArithEval.EName "price") (ArithEval.EName "quantity")).
Proof. reflexivity. Qed.

Lemma parse_total_times_tenth :
  ArithEval.parse "total*0.1"
  = Some (ArithEval.EBin ArithEval.Mul (ArithEval.EName "total")
            (ArithEval.EDec (ArithEval.decimal ["0"%char] ["1"%char]))).
Proof. reflexivity. Qed.

End Numbers.

(* ================================================================== *)
(** * The specification's statements                                   *)
(* ================================================================== *)

Section Statements.
Context `{!Pandas, !Host, !YData}.

(** The two provenance assignments that end [derive] and [cast], on the
    object allocated last. *)
Lemma provenance_run (h : list DataFrame) (ws : list warning) (f : DataFrame)
    (k1 k2 : string) (v1 v2 : attr_value) :
  (attrs_setitem (length h) k1 v1;; attrs_setitem (length h) k2 v2;; mret (length h))
    (mk_world (h ++ [f]) ws)
  = (Ok (length h), mk_world (h ++ [set_attr (set_attr f k1 v1) k2 v2]) ws).
Proof.
  rewrite bind_run, (attrs_setitem_run _ _ f) by apply lookup_last.
  cbn [heap warnings_log]. rewrite insert_last.
  rewrite bind_run, (attrs_setitem_run _ _ (set_attr f k1 v1)) by apply lookup_last.
  cbn [heap warnings_log]. by rewrite insert_last.
Qed.

Lemma derive_dict_run (d : list (string * string)) (self : loc) (w : world) (f : DataFrame) :
  heap w !! self = Some f →
  derive (PDict d) self w
  = (derive_entries d (length (heap w));;
     attrs_setitem (length (heap w)) "enrich_derived" (ABool true);;
     attrs_setitem (length (heap w)) "enrich_derivations" (ADict d);;
     mret (length (heap w)))
      (mk_world (heap w ++ [f]) (warnings_log w)).
Proof.
  intros Hself. unfold derive. by rewrite bind_run, (copy_run _ _ _ Hself).
Qed.

(** C10. [derive] with an empty mapping and [cast] with an empty mapping
    return, emit no warning, and return a new object that has the caller's
    index and columns and the caller's [attrs] with the operation's flag
    set to True and the empty mapping recorded. *)
Theorem C10_empty_mapping_still_stamps (self : loc) (w : world) (f : DataFrame) :
  heap w !! self = Some f →
  (∃ f', derive (PDict []) self w
         = (Ok (length (heap w)), mk_world (heap w ++ [f']) (warnings_log w))
         ∧ index f' = index f ∧ data f' = data f
         ∧ attrs f' = <["enrich_derivations" := ADict []]>
                        (<["enrich_derived" := ABool true]> (attrs f)))
  ∧ (∃ f', cast [] self w
           = (Ok (length (heap w)), mk_world (heap w ++ [f']) (warnings_log w))
           ∧ index f' = index f ∧ data f' = data f
           ∧ attrs f' = <["enrich_dtypes" := ADict []]>
                          (<["enrich_cast" := ABool true]> (attrs f))).
Proof.
  intros Hself. split.
  - rewrite (derive_dict_run _ _ _ _ Hself), bind_run, derive_entries_nil.
    cbv beta iota. rewrite provenance_run. by eexists.
  - rewrite (cast_run _ _ _ _ Hself), bind_run. cbn [cast_entries].
    unfold cast_warnings. cbn [fmap list_fmap filter list_filter].
    unfold mret at 1, M_ret. cbv beta iota. rewrite app_nil_r, provenance_run.
    by eexists.
Qed.


(** C2. The chain [df.enrich.validate(schema).enrich.derive(spec)
    .enrich.cast(dtype_spec)], when each call returns: the [attrs] of the
    final table are the [attrs] of the table the schema returned with the
    six provenance keys set, one pair by each call: each call carried
    forward what it was given and wrote its own two keys only.  So the
    three flags are there together. *)
Theorem C2_chained_calls_accumulate_provenance (schema : schema_arg) (spec : pyobj)
    (dtype_spec : list (string * string)) (self l3 : loc) (w w3 : world) :
  (l1 ← validate schema self; l2 ← derive spec l1; cast dtype_spec l2) w = (Ok l3, w3) →
  ∃ (l1 : loc) (w1 : world) (f1 f3 : DataFrame) (d : list (string * string)),
    schema_validate (schema_of schema) self false w = (Ok l1, w1)
    ∧ heap w1 !! l1 = Some f1
    ∧ heap w3 !! l3 = Some f3
    ∧ attrs f3
      = <["enrich_dtypes" := ADict dtype_spec]>
          (<["enrich_cast" := ABool true]>
             (<["enrich_derivations" := ADict d]>
                (<["enrich_derived" := ABool true]>
                   (<["enrich_schema" := AStr (schema_str (schema_of schema))]>
                      (<["enrich_validated" := ABool true]> (attrs f1))))))
    ∧ attrs f3 !! "enrich_validated" = Some (ABool true)
    ∧ attrs f3 !! "enrich_derived" = Some (ABool true)
    ∧ attrs f3 !! "enrich_cast" = Some (ABool true).
Proof.
  intros Hrun.
  apply bind_ok_inv in Hrun as (l1 & wv & Hvalidate & Hrun).
  apply bind_ok_inv in Hrun as (l2 & wd & Hderive & Hcast).
  apply validate_ok_inv in Hvalidate as (w1 & f1 & Hschema & Hl1 & ->).
  apply derive_ok_inv in Hderive as (fv & f2 & d & Hfv & _ & -> & -> & _ & Hattrs2).
  cbn in Hfv. rewrite list_lookup_insert_eq in Hfv by by eapply lookup_lt_Some.
  injection Hfv as <-.
  apply cast_effect in Hcast as [(Hnone & _ & [=])|(f2' & f3 & Hf2 & -> & _ & _ & Hok)].
  cbn in Hf2. rewrite lookup_last in Hf2. injection Hf2 as <-.
  destruct (Hok l3 eq_refl) as [-> Hattrs3]. cbn in Hattrs3.
  assert (Hall : attrs f3
      = <["enrich_dtypes" := ADict dtype_spec]>
          (<["enrich_cast" := ABool true]>
             (<["enrich_derivations" := ADict d]>
                (<["enrich_derived" := ABool true]>
                   (<["enrich_schema" := AStr (schema_str (schema_of schema))]>
                      (<["enrich_validated" := ABool true]> (attrs f1))))))).
  { by rewrite Hattrs3, Hattrs2. }
  exists l1, w1, f1, f3, d. split_and!; try done.
  - cbn. apply lookup_last.
  - rewrite Hall. by simplify_map_eq.
  - rewrite Hall. by simplify_map_eq.
  - rewrite Hall. by simplify_map_eq.
Qed.

(** C5. [cast] on a mapping whose conversions succeed on the columns that
    are present: it returns a new object; exactly one warning is emitted
    when some requested column is absent, listing the absent names and the
    table's columns, and none otherwise; every requested column that is
    present holds the conversion of the caller's column; the other columns,
    the set of columns and the index are as in the caller's table; [attrs]
    are the caller's with [enrich_cast] set to True and [enrich_dtypes] to
    the whole requested mapping, skipped entries included. *)
Theorem C5_cast_warns_skips_and_converts (dtype_spec : list (string * string))
    (self : loc) (w : world) (f : DataFrame) :
  heap w !! self = Some f →
  NoDup dtype_spec.*1 →
  (∀ col dt s, (col, dt) ∈ dtype_spec → get_column f col = Some s → is_ok (astype s dt)) →
  let missing_cols := filter (λ col, col ∉ columns f) dtype_spec.*1 in
  ∃ f',
    cast dtype_spec self w
    = (Ok (length (heap w)),
       mk_world (heap w ++ [f'])
         (warnings_log w ++
          match missing_cols with
          | [] => []
          | _ => [mk_warning UserWarning
                    [Lit "Columns "; FList missing_cols;
                     Lit " not found in DataFrame. Available columns: ";
                     FList (columns f); Lit ". These columns will be skipped."]]
          end))
    ∧ (∀ col dt s, (col, dt) ∈ dtype_spec → get_column f col = Some s →
         ∃ s', astype s dt = Ok s' ∧ get_column f' col = Some s')
    ∧ (∀ col, col ∉ dtype_spec.*1 → get_column f' col = get_column f col)
    ∧ columns f' = columns f
    ∧ index f' = index f
    ∧ attrs f' = <["enrich_dtypes" := ADict dtype_spec]>
                   (<["enrich_cast" := ABool true]> (attrs f)).
Proof.
  intros Hself Hnodup Hconv missing_cols.
  rewrite (cast_run _ _ _ _ Hself), bind_run.
  set (w1 := mk_world (heap w ++ [f]) (warnings_log w ++ cast_warnings dtype_spec f)).
  destruct (cast_entries_ok dtype_spec (length (heap w)) w1 f)
    as (f1 & Hloop & Hconverted & Hrest); [apply lookup_last|done..|].
  pose proof Hloop as Heffect.
  eapply cast_entries_effect in Heffect as (f1' & Hw & Ha & Hi & Hcols);
    [|apply lookup_last].
  assert (f1' = f1) as ->.
  { injection Hw as Hw. cbn in Hw. rewrite !insert_last in Hw.
    by apply app_inj_tail in Hw as [_ ->]. }
  rewrite Hloop. cbn [heap warnings_log w1]. rewrite insert_last, provenance_run.
  eexists. split_and!.
  - unfold cast_warnings. fold missing_cols. by destruct missing_cols.
  - done.
  - done.
  - done.
  - done.
  - cbn. by rewrite Ha.
Qed.


(** C7. [lookup] without a resolver, on a source that is a string: it
    raises NotImplementedError with the string in its message, whatever
    [dst] and [on_missing] are.  On a source that is neither a string nor
    a table it raises TypeError.  (The copy made on entry is all that has
    happened.) *)
Theorem C7_lookup_string_source_not_implemented (dst : dst_arg) (on_missing : string)
    (self : loc) (w : world) (f : DataFrame) :
  heap w !! self = Some f →
  (∀ s, lookup (SrcStr s) dst None on_missing self w
        = (Raise (mk_exn NotImplementedError
                    [Lit "String-based lookup sources ('"; FStr s;
                     Lit "') require df-eval Engine integration. ";
                     Lit "Use a DataFrame or custom resolver for now."]),
           mk_world (heap w ++ [f]) (warnings_log w)))
  ∧ (∀ type_name, lookup (SrcOther type_name) dst None on_missing self w
        = (Raise (mk_exn TypeError [Lit "src must be str or DataFrame, got "; FType type_name]),
           mk_world (heap w ++ [f]) (warnings_log w))).
Proof.
  intros Hself. split; intros x; unfold lookup;
    by rewrite bind_run, (copy_run _ _ _ Hself).
Qed.

(** C8. [lookup] with a resolver: the resolver is called on a new copy of
    the caller's table, on [src] and on [dst] as they were given, and its
    outcome (result or exception, store, warnings) is the outcome of the
    call.  So with a resolver that hands the copy back, the result is the
    copy as it was made, with the caller's [attrs] and no [enrich_lookup]
    added, and nothing is raised or warned whatever [src], [dst] and
    [on_missing] are. *)
Theorem C8_lookup_resolver_owns_the_call (resolve : Resolver) (src : source) (dst : dst_arg)
    (on_missing : string) (self : loc) (w : world) (f : DataFrame) :
  heap w !! self = Some f →
  lookup src dst (Some resolve) on_missing self w
  = resolve (length (heap w)) src dst (mk_world (heap w ++ [f]) (warnings_log w))
  ∧ lookup src dst (Some identity_resolver) on_missing self w
    = (Ok (length (heap w)), mk_world (heap w ++ [f]) (warnings_log w)).
Proof.
  intros Hself. split; by rewrite (lookup_resolver_run _ _ _ _ _ _ _ Hself).
Qed.


End Statements.

Section Copies.
Context `{!Pandas, !Host, !YData}.

Lemma run_table_new_object (op : M loc) (self : loc) (w : world) (f : DataFrame) :
  heap w !! self = Some f →
  returns_new_object w (op w) →
  let r := (l ← op; mret (VTable l)) w in
  heap w `prefix_of` heap r.2
  ∧ heap r.2 !! self = Some f
  ∧ ∀ v, r.1 = Ok v →
      ∃ l', v = VTable l' ∧ l' ≠ self ∧ heap w !! l' = None ∧ is_Some (heap r.2 !! l').
Proof.
  intros Hself [Hpre Hnew]. cbv zeta. rewrite bind_run.
  destruct (op w) as [[l'|e] w'] eqn:Hop; cbn in *.
  - split_and!; [done|by eapply prefix_lookup_Some|].
    intros v [= <-]. destruct (Hnew l' eq_refl) as [Hge Hlt].
    exists l'. split_and!; [done| |by apply lookup_ge_None|by apply lookup_lt_is_Some].
    apply lookup_lt_Some in Hself. lia.
  - split_and!; [done|by eapply prefix_lookup_Some|done].
Qed.

(** C1, as amended.  [derive], [cast], [lookup] without a resolver, and
    [validate] under a schema that validates on a copy: every object of
    the caller's world, the caller's table among them, is left as it was,
    whether the call returns or raises, and a result is a table object
    that did not exist before, so not the caller's.  Such a [validate]
    returns a table whose [attrs] hold [enrich_validated] = True and
    [enrich_schema] = str(schema).  [lookup] with a resolver returns
    what the resolver returns, and [profile] returns no table. *)
Theorem C1_copying_operations_return_new_tables :
  (∀ c self w f,
      heap w !! self = Some f →
      works_on_a_copy c →
      let r := run c self w in
      heap w `prefix_of` heap r.2
      ∧ heap r.2 !! self = Some f
      ∧ ∀ v, r.1 = Ok v →
          ∃ l', v = VTable l' ∧ l' ≠ self ∧ heap w !! l' = None ∧ is_Some (heap r.2 !! l'))
  ∧ (∀ schema self w f l' w',
      heap w !! self = Some f →
      validates_on_a_copy (schema_of schema) →
      validate schema self w = (Ok l', w') →
      heap w' !! self = Some f
      ∧ ∃ f', heap w' !! l' = Some f'
              ∧ attrs f' !! "enrich_validated" = Some (ABool true)
              ∧ attrs f' !! "enrich_schema" = Some (AStr (schema_str (schema_of schema))))
  ∧ (∀ resolve src dst on_missing self w f,
      heap w !! self = Some f →
      lookup src dst (Some resolve) on_missing self w
      = resolve (length (heap w)) src dst (mk_world (heap w ++ [f]) (warnings_log w)))
  ∧ (∀ engine lazy kw self w v,
      (run (CallProfile engine lazy kw) self w).1 = Ok v → ∃ p, v = VProfile p).
Proof.
  split_and!.
  - intros c self w f Hself Hcopy. destruct c as [schema|spec|dtype_spec|src dst [r|] pol|];
      try done; cbn [run]; apply run_table_new_object; try done.
    + by apply validate_new_object.
    + apply derive_new_object.
    + apply cast_new_object.
    + apply lookup_new_object.
  - intros schema self w f l' w' Hself Hcopy Hrun.
    pose proof (validate_new_object schema self w Hcopy) as [Hpre _].
    rewrite Hrun in Hpre. cbn in Hpre. split; [by eapply prefix_lookup_Some|].
    apply validate_ok_inv in Hrun as (w1 & f1 & Hschema & Hl' & ->).
    eexists. cbn. split_and!.
    + apply list_lookup_insert_eq. by eapply lookup_lt_Some.
    + cbn. by simplify_map_eq.
    + cbn. by simplify_map_eq.
  - intros. by apply lookup_resolver_run.
  - intros engine lazy kw self w v. cbn [run]. rewrite bind_run.
    destruct (profile _ _ _ _ _) as [[p|e] w']; cbn; [|done].
    intros [= <-]. by exists p.
Qed.

End Copies.

(** C1 fails as it is stated.  On the table of the tests, alone in the
    store at location 0:
    - [lookup] with the table itself as source and a resolver that answers
      with its source returns the caller's own object;
    - [profile()], ydata-profiling being absent, returns a mapping, which
      is no table;
    - [validate] under a schema whose [validate] returns the object it was
      given returns the caller's own object, with the two provenance keys
      written into the caller's [attrs]. *)
Lemma C1_counterexample :
  ¬ new_table_caller_untouched
      (CallLookup (SrcTable 0%nat) (DstStr "a") (Some source_resolver) "warn")
      0%nat (world_of [table_ab])
  ∧ ¬ new_table_caller_untouched (CallProfile "ydata" false []) 0%nat (world_of [table_ab])
  ∧ ¬ new_table_caller_untouched
        (CallValidate (SchemaInstance (passthrough_schema "schema")))
        0%nat (world_of [table_ab]).
Proof.
  split_and!; intros [Hsame Hres].
  - destruct (Hres (VTable 0%nat)) as (l' & [= <-] & Hl'); [reflexivity|done].
  - edestruct Hres as (l' & Hl' & _); [reflexivity|discriminate].
  - destruct (Hres (VTable 0%nat)) as (l' & [= <-] & Hl'); [reflexivity|done].
Qed.

Section DeriveExamples.

Lemma eval_product_numbers (f : DataFrame) (text a b : string) (op : ArithEval.binop)
    (p q : Series) :
  ArithEval.parse text = Some (ArithEval.EBin op (ArithEval.EName a) (ArithEval.EName b)) →
  get_column f a = Some p → get_column f b = Some q →
  numeric p → numeric q →
  ∃ s, ArithEval.eval f text = Ok s ∧ numeric s.
Proof.
  intros Hparse Ha Hb Hp Hq. unfold ArithEval.eval. rewrite Hparse.
  cbn [ArithEval.eval_expr]. rewrite Ha, Hb.
  destruct (columns_product_numbers op p q Hp Hq) as (s & -> & Hs). eauto.
Qed.

Lemma eval_scaled_numbers (f : DataFrame) (text a : string) (op : ArithEval.binop)
    (p : Series) (k : Qc) :
  ArithEval.parse text = Some (ArithEval.EBin op (ArithEval.EName a) (ArithEval.EDec k)) →
  get_column f a = Some p →
  numeric p →
  ∃ s, ArithEval.eval f text = Ok s ∧ numeric s.
Proof.
  intros Hparse Ha Hp. unfold ArithEval.eval. rewrite Hparse.
  cbn [ArithEval.eval_expr]. rewrite Ha.
  destruct (column_scalar_numbers op p (CFloat k) Hp I) as (s & -> & Hs). eauto.
Qed.

(** C3.  Against any expression evaluator: the loop over a mapping is the
    loop over its earlier entries followed by the loop over the later
    ones; an entry's expression is evaluated on the table as it stands
    when the entry is reached, the result is assigned to the entry's
    column on that table, and the later entries run on the table so
    amended, in which the column is present.
    With the arithmetic evaluator:
    [derive({"total": "price*quantity", "discount": "total*0.1"})] returns
    on every table whose columns price and quantity hold numbers, [total]
    being evaluated on the caller's table and [discount] on the table
    that has [total]; with the two entries swapped it raises on the sales
    table, which has no [total]; and [derive({"c": "a + b"})] on
    a=[1,2,3], b=[4,5,6] returns a new table with c=[5,7,9],
    [enrich_derived] = True and [enrich_derivations] = {"c": "a + b"}. *)
Theorem C3_derive_applies_entries_in_order :
  (∀ (P : Pandas) (earlier later : list (string * string)) (c : loc) (w : world),
      derive_entries (earlier ++ later) c w
      = (derive_entries earlier c;; derive_entries later c) w)
  ∧ (∀ (P : Pandas) (col e : string) (later : list (string * string))
       (c : loc) (w : world) (f : DataFrame) (s : Series),
      heap w !! c = Some f →
      df_eval f e = Ok s →
      derive_entries ((col, e) :: later) c w
      = derive_entries later c
          (mk_world (<[c := set_column f col s]> (heap w)) (warnings_log w))
      ∧ get_column (set_column f col s) col = Some s)
  ∧ (∀ (H : Host) (self : loc) (w : world) (f : DataFrame) (p q : Series),
      heap w !! self = Some f →
      get_column f "price" = Some p → get_column f "quantity" = Some q →
      numeric p → numeric q →
      ∃ f' total discount,
        derive (PDict [("total", "price*quantity"); ("discount", "total*0.1")]) self w
        = (Ok (length (heap w)), mk_world (heap w ++ [f']) (warnings_log w))
        ∧ ArithEval.eval f "price*quantity" = Ok total
        ∧ ArithEval.eval (set_column f "total" total) "total*0.1" = Ok discount
        ∧ get_column f' "total" = Some total
        ∧ get_column f' "discount" = Some discount)
  ∧ (derive (PDict [("discount", "total*0.1"); ("total", "price*quantity")])
       0%nat (world_of [table_sales])).1
    = Raise (derivation_failure "discount" "total*0.1"
               (mk_exn NameError [Lit "name '"; FStr "total"; Lit "' is not defined"]))
  ∧ derive (PDict [("c", "a + b")]) 0%nat (world_of [table_ab])
    = (Ok 1%nat,
       world_of
         [table_ab;
          mk_df [LInt 0; LInt 1; LInt 2]
            [("a", int_column [1; 2; 3]); ("b", int_column [4; 5; 6]);
             ("c", int_column [5; 7; 9])]
            (<["enrich_derivations" := ADict [("c", "a + b")]]>
               (<["enrich_derived" := ABool true]> ∅))]).
Proof.
  split_and!.
  - intros. apply derive_entries_app.
  - intros P col e later c w f s Hc He. split.
    + by apply derive_entries_cons_ok.
    + unfold get_column. cbn. apply assoc_set_eq.
  - intros H self w f p q Hself Hprice Hquantity Hp Hq.
    destruct (eval_product_numbers f "price*quantity" "price" "quantity" ArithEval.Mul p q)
      as (total & Htotal & Hnt); [apply parse_price_times_quantity|done..|].
    destruct (eval_scaled_numbers (set_column f "total" total) "total*0.1" "total"
                ArithEval.Mul total (ArithEval.decimal ["0"%char] ["1"%char]))
      as (discount & Hdiscount & _); [apply parse_total_times_tenth| |done|].
    { unfold get_column. cbn. apply assoc_set_eq. }
    rewrite (derive_dict_run _ _ _ _ Hself), bind_run.
    rewrite (derive_entries_cons_ok (H := simple_pandas) _ _ _ _ _ f total)
      by (apply lookup_last || exact Htotal).
    cbn [heap warnings_log]. rewrite insert_last.
    rewrite (derive_entries_cons_ok (H := simple_pandas) _ _ _ _ _
               (set_column f "total" total) discount)
      by (apply lookup_last || exact Hdiscount).
    cbn [heap warnings_log]. rewrite insert_last, derive_entries_nil.
    cbv beta iota. rewrite provenance_run.
    eexists _, total, discount. split_and!; try done.
    + unfold get_column. cbn. rewrite assoc_set_ne by done. apply assoc_set_eq.
    + unfold get_column. cbn. apply assoc_set_eq.
  - reflexivity.
  - reflexivity.
Qed.

End DeriveExamples.

(* ================================================================== *)
(** * Further runs of lookup                                           *)
(* ================================================================== *)

(** [test_lookup_with_dataframe]: the indices match, no value is missing,
    nothing is warned, and the result carries the prices and the flag. *)
Lemma lookup_on_matching_index :
  lookup (SrcTable 1%nat) (DstStr "price") None "warn" 0%nat
    (world_of [table_ab; table_prices])
  = (Ok 3%nat,
     world_of
       [table_ab; table_prices; table_ab;
        mk_df [LInt 0; LInt 1; LInt 2]
          [("a", int_column [1; 2; 3]); ("b", int_column [4; 5; 6]);
           ("price", int_column [10; 20; 30])]
          (<["enrich_lookup" := ABool true]> ∅)]).
Proof. reflexivity. Qed.

(** What is counted are the columns of the joined table that [dst] names.
    When the caller's table has a column of that name already, the
    source's column is the one that takes the suffix, and the column
    counted is the caller's: here no label matches, the caller's [price]
    has no missing value, and "raise" does not raise. *)
Lemma lookup_counts_the_columns_named_dst :
  (lookup (SrcTable 1%nat) (DstStr "price") None "raise" 0%nat
     (world_of [table_prices; table_prices_elsewhere])).1
  = Ok 3%nat.
Proof. reflexivity. Qed.




(* ================================================================== *)
(** * The statements on the tables of the test suite                   *)
(* ================================================================== *)

(** [derive] on the table of the tests, and [validate] on it under the
    schema of the tests: a new object at location 1, the caller's table
    at location 0 as it was. *)
Lemma C1_witness :
  (heap (world_of [table_ab]) !! 0%nat = Some table_ab
   ∧ works_on_a_copy (CallDerive (PDict [("c", "a + b")]))
   ∧ heap (run (CallDerive (PDict [("c", "a + b")])) 0%nat (world_of [table_ab])).2 !! 0%nat
     = Some table_ab)
  ∧ (validate (SchemaInstance ab_schema) 0%nat (world_of [table_ab])).1 = Ok 1%nat
  ∧ heap (validate (SchemaInstance ab_schema) 0%nat (world_of [table_ab])).2 !! 0%nat
    = Some table_ab.
Proof.
  pose proof (C1_copying_operations_return_new_tables
                (H := simple_pandas) (H0 := example_host) (H1 := example_ydata))
    as (Hcalls & Hvalidate & _ & _).
  split_and!.
  - reflexivity.
  - exact I.
  - exact (proj1 (proj2 (Hcalls (CallDerive (PDict [("c", "a + b")])) 0%nat
                           (world_of [table_ab]) table_ab eq_refl I))).
  - reflexivity.
  - exact (proj1 (Hvalidate (SchemaInstance ab_schema) 0%nat (world_of [table_ab]) table_ab
                    1%nat _ eq_refl (copying_schema_on_a_copy _ _) eq_refl)).
Defined.

(** The chain of [test_method_chaining]. *)
Lemma C2_witness :
  ∃ f3,
    heap ((l1 ← validate (SchemaInstance ab_schema) 0%nat;
           l2 ← derive (PDict [("c", "a + b")]) l1;
           cast [("c", "int32")] l2) (world_of [table_ab])).2 !! 3%nat = Some f3
    ∧ attrs f3 !! "enrich_validated" = Some (ABool true)
    ∧ attrs f3 !! "enrich_derived" = Some (ABool true)
    ∧ attrs f3 !! "enrich_cast" = Some (ABool true).
Proof.
  destruct (C2_chained_calls_accumulate_provenance
              (H := simple_pandas) (H0 := example_host)
              (SchemaInstance ab_schema) (PDict [("c", "a + b")]) [("c", "int32")]
              0%nat 3%nat (world_of [table_ab]) _ eq_refl)
    as (l1 & w1 & f1 & f3 & d & _ & _ & Hf3 & _ & Hv & Hd & Hc).
  exists f3. auto.
Defined.

(** One turn of the loop on the table of the tests, and the two-entry
    mapping on the sales table of the example. *)
Lemma C3_witness :
  (heap (world_of [table_ab]) !! 0%nat = Some table_ab
   ∧ ArithEval.eval table_ab "a + b" = Ok (int_column [5; 7; 9])
   ∧ get_column (set_column table_ab "c" (int_column [5; 7; 9])) "c"
     = Some (int_column [5; 7; 9]))
  ∧ (numeric (float_column [10; 20; 30])
     ∧ numeric (int_column [2; 3; 1])
     ∧ ∃ f', (derive (PDict [("total", "price*quantity"); ("discount", "total*0.1")])
                0%nat (world_of [table_sales])).2
             = world_of [table_sales; f']).
Proof.
  pose proof C3_derive_applies_entries_in_order as (_ & Hturn & Hsales & _ & _).
  assert (Hprice : numeric (float_column [10; 20; 30])) by (repeat constructor).
  assert (Hquantity : numeric (int_column [2; 3; 1])) by (repeat constructor).
  split_and!.
  - reflexivity.
  - reflexivity.
  - exact (proj2 (Hturn simple_pandas "c" "a + b" [] 0%nat (world_of [table_ab]) table_ab
                    (int_column [5; 7; 9]) eq_refl eq_refl)).
  - exact Hprice.
  - exact Hquantity.
  - destruct (Hsales example_host 0%nat (world_of [table_sales]) table_sales
                (float_column [10; 20; 30]) (int_column [2; 3; 1])
                eq_refl eq_refl eq_refl Hprice Hquantity)
      as (f' & total & discount & Hrun & _).
    exists f'. by rewrite Hrun.
Defined.


(** [test_cast_with_missing_columns], on the table of the tests. *)
Lemma C5_witness :
  NoDup ["a"; "nonexistent"]
  ∧ ∃ f', cast [("a", "int64"); ("nonexistent", "float32")] 0%nat (world_of [table_ab])
          = (Ok 1%nat,
             mk_world [table_ab; f']
               [mk_warning UserWarning
                  [Lit "Columns "; FList ["nonexistent"];
                   Lit " not found in DataFrame. Available columns: "; FList ["a"; "b"];
                   Lit ". These columns will be skipped."]])
          ∧ columns f' = ["a"; "b"].
Proof.
  assert (Hnodup : NoDup ["a"; "nonexistent"]) by compute_done.
  split; [done|].
  destruct (C5_cast_warns_skips_and_converts (H := simple_pandas)
              [("a", "int64"); ("nonexistent", "float32")] 0%nat (world_of [table_ab])
              table_ab eq_refl Hnodup)
    as (f' & Hrun & _ & _ & Hcols & _).
  - intros col dt s Hin Hcol.
    apply elem_of_cons in Hin as [[= -> ->]|Hin].
    + injection Hcol as <-. exact I.
    + apply elem_of_cons in Hin as [[= -> ->]|Hin]; [discriminate|].
      by apply elem_of_nil in Hin.
  - exists f'. split; [exact Hrun|exact Hcols].
Defined.


(** [test_lookup_with_string_source]. *)
Lemma C7_witness :
  (lookup (SrcStr "registry://data") (DstStr "col") None "raise" 0%nat
     (world_of [table_ab])).1
  = Raise (mk_exn NotImplementedError
             [Lit "String-based lookup sources ('"; FStr "registry://data";
              Lit "') require df-eval Engine integration. ";
              Lit "Use a DataFrame or custom resolver for now."]).
Proof.
  destruct (C7_lookup_string_source_not_implemented (H := simple_pandas)
              (DstStr "col") "raise" 0%nat (world_of [table_ab]) table_ab eq_refl)
    as [Hstr _].
  by rewrite Hstr.
Defined.

(** [test_lookup_with_resolver]: the result is what the resolver made of
    the copy, a column b = a * 10, and nothing else. *)
Lemma C8_witness :
  lookup (SrcOther "<class 'NoneType'>") (DstStr "b") (Some times_ten_resolver) "warn"
    0%nat (world_of [table_ab])
  = (Ok 1%nat,
     world_of [table_ab; set_column table_ab "b" (int_column [10; 20; 30])]).
Proof.
  destruct (C8_lookup_resolver_owns_the_call (H := simple_pandas) times_ten_resolver
              (SrcOther "<class 'NoneType'>") (DstStr "b") "warn" 0%nat
              (world_of [table_ab]) table_ab eq_refl)
    as [Hrun _].
  by rewrite Hrun.
Defined.


(** The empty mapping on the table of the tests. *)
Lemma C10_witness :
  (derive (PDict []) 0%nat (world_of [table_ab])).1 = Ok 1%nat
  ∧ (cast [] 0%nat (world_of [table_ab])).1 = Ok 1%nat.
Proof.
  destruct (C10_empty_mapping_still_stamps (H := simple_pandas) (H0 := example_host)
              0%nat (world_of [table_ab]) table_ab eq_refl)
    as [(f1 & Hderive & _) (f2 & Hcast & _)].
  by rewrite Hderive, Hcast.
Defined.

(* ================================================================== *)
(** * Further properties of derive                                     *)
(* ================================================================== *)

Section DeriveFurther.
Context `{!Pandas, !Host, !YData}.

(** A specification and the mapping it resolves to are derived alike. *)
Lemma derive_resolved (spec : pyobj) (d : list (string * string)) (self : loc) (w : world) :
  (resolve_spec spec w).1 = Ok (PDict d) →
  derive spec self w = derive (PDict d) self w.
Proof.
  intros Hres. unfold derive. rewrite !bind_run.
  destruct (copy self w) as [[c|e] w1]; [|done].
  rewrite !bind_run. destruct (resolve_spec_pure spec) as [o Ho].
  rewrite Ho in Hres |- *. cbn in Hres. by subst o.
Qed.

(** The loop on a table: its columns stay, in their order, with new ones
    after them; a column the mapping does not name keeps its data; when
    the loop returns, every name of the mapping is a column. *)
Lemma derive_entries_columns es (c : loc) (w w' : world) (f f' : DataFrame) (o : outcome unit) :
  heap w !! c = Some f →
  derive_entries es c w = (o, w') →
  heap w' !! c = Some f' →
  columns f `prefix_of` columns f'
  ∧ (∀ col, col ∉ es.*1 → get_column f' col = get_column f col)
  ∧ (o = Ok tt → ∀ col, col ∈ es.*1 → col ∈ columns f').
Proof.
  revert w f. induction es as [|[col e] es IH]; intros w f Hc Hrun Hc'.
  - cbn in Hrun. injection Hrun as <- <-. rewrite Hc in Hc'. injection Hc' as <-.
    split_and!; [done|done|]. intros _ col Hin. by apply elem_of_nil in Hin.
  - destruct (df_eval f e) as [s|ex] eqn:He.
    + rewrite (derive_entries_cons_ok _ _ _ _ _ _ _ Hc He) in Hrun.
      assert (Hc1 : heap (mk_world (<[c := set_column f col s]> (heap w)) (warnings_log w))
                    !! c = Some (set_column f col s)).
      { cbn. apply list_lookup_insert_eq. by eapply lookup_lt_Some. }
      destruct (IH _ _ Hc1 Hrun Hc') as (Hpre & Hrest & Hkeys).
      assert (Hstep : columns f `prefix_of` columns (set_column f col s)).
      { unfold columns. cbn. clear. induction (data f) as [|[k v] l IHl]; cbn.
        - apply prefix_nil.
        - destruct (decide (col = k)) as [->|]; cbn; [done|]. by apply prefix_cons. }
      split_and!.
      * by etrans.
      * intros k Hk. cbn in Hk. apply not_elem_of_cons in Hk as [Hne Hk].
        rewrite Hrest by done. unfold get_column. cbn. by apply assoc_set_ne.
      * intros Ho k Hk. cbn in Hk. apply elem_of_cons in Hk as [->|Hk]; [|by apply Hkeys].
        destruct Hpre as [t ->]. apply elem_of_app. left.
        unfold columns. cbn. eapply assoc_Some_columns. apply assoc_set_eq.
    + rewrite (derive_entries_cons_raise _ _ _ _ _ _ _ Hc He) in Hrun.
      injection Hrun as <- <-. rewrite Hc in Hc'. injection Hc' as <-.
      split_and!; [done|done|]. by destruct (isinstance_exn ex Exception).
Qed.

End DeriveFurther.

Section DeriveProperties.
Context `{!Pandas, !Host, !YData}.

(** What a call of [derive] that returns has done, loop included. *)
Lemma derive_ok_loop (spec : pyobj) (self l' : loc) (w w' : world) :
  derive spec self w = (Ok l', w') →
  ∃ f f1 d,
    heap w !! self = Some f
    ∧ (resolve_spec spec w).1 = Ok (PDict d)
    ∧ derive_entries d (length (heap w)) (mk_world (heap w ++ [f]) (warnings_log w))
      = (Ok tt, mk_world (heap w ++ [f1]) (warnings_log w))
    ∧ l' = length (heap w)
    ∧ w' = mk_world
             (heap w ++ [set_attr (set_attr f1 "enrich_derived" (ABool true))
                                  "enrich_derivations" (ADict d)])
             (warnings_log w).
Proof.
  intros Hrun. pose proof Hrun as Hinv.
  apply derive_ok_inv in Hinv as (f & f' & d & Hself & Hres & _).
  assert (Hres1 : (resolve_spec spec w).1 = Ok (PDict d)) by by rewrite Hres.
  rewrite (derive_resolved _ _ _ _ Hres1), (derive_dict_run _ _ _ _ Hself), bind_run in Hrun.
  destruct (derive_entries _ _ _) as [[[]|e] w1] eqn:Hloop; [|discriminate].
  pose proof Hloop as Heffect.
  eapply derive_entries_effect in Heffect as (f1 & -> & _); [|apply lookup_last].
  cbn [heap warnings_log] in Hrun, Hloop. rewrite insert_last in Hrun, Hloop.
  rewrite provenance_run in Hrun. injection Hrun as <- <-.
  by exists f, f1, d.
Qed.

(** X1.  The first entry whose evaluation fails ends [derive]: ValueError
    is raised with the entry's column, its expression and the text of the
    evaluator's exception; the entries after it are not looked at; the
    abandoned copy holds the columns derived so far and the caller's
    [attrs], without provenance. *)
Theorem derive_failure_names_the_entry (earlier later : list (string * string))
    (col e : string) (self : loc) (w : world) (f f1 : DataFrame) (ex : exn) :
  heap w !! self = Some f →
  derive_entries earlier (length (heap w)) (mk_world (heap w ++ [f]) (warnings_log w))
  = (Ok tt, mk_world (heap w ++ [f1]) (warnings_log w)) →
  df_eval f1 e = Raise ex →
  isinstance_exn ex Exception = true →
  derive (PDict (earlier ++ (col, e) :: later)) self w
  = (Raise (mk_exn ValueError
              ([Lit "Failed to derive column '"; FStr col;
                Lit "' with expression '"; FStr e; Lit "': "] ++ exn_msg ex)),
     mk_world (heap w ++ [f1]) (warnings_log w))
  ∧ attrs f1 = attrs f.
Proof.
  intros Hself Hearlier He Hinst. split.
  - rewrite (derive_dict_run _ _ _ _ Hself), bind_run, derive_entries_app, bind_run, Hearlier.
    cbv beta iota.
    rewrite (derive_entries_cons_raise _ _ _ _ _ f1 ex) by (apply lookup_last || done).
    by rewrite Hinst.
  - eapply derive_entries_effect in Hearlier as (f1' & Hw & Ha & _); [|apply lookup_last].
    injection Hw as Hw. cbn in Hw. rewrite insert_last in Hw.
    by apply app_inj_tail in Hw as [_ ->].
Qed.

(** X2.  A specification that resolves to something that is no mapping (a
    text that names no file and is a YAML scalar or sequence, an empty
    text) makes [derive] raise AttributeError at [spec_dict.items()]: not
    the ValueError of an invalid specification.  Nothing is derived or
    recorded. *)
Theorem derive_non_mapping_raises_attribute_error (spec v : pyobj) (self : loc)
    (w : world) (f : DataFrame) :
  heap w !! self = Some f →
  (resolve_spec spec w).1 = Ok v →
  (∀ d, v ≠ PDict d) →
  derive spec self w
  = (Raise (mk_exn AttributeError
              [FType (type_name_of v); Lit " object has no attribute 'items'"]),
     mk_world (heap w ++ [f]) (warnings_log w)).
Proof.
  intros Hself Hres Hnot. unfold derive.
  rewrite bind_run, (copy_run _ _ _ Hself). cbv beta iota. rewrite bind_run.
  destruct (resolve_spec_pure spec) as [o Ho]. rewrite Ho in Hres |- *.
  cbn in Hres. subst o. cbv beta iota. rewrite bind_run.
  destruct v as [s|d|n]; [done|by destruct (Hnot d)|done].
Qed.

(** X3.  A text that names a readable file whose contents do not parse:
    the parser's exception leaves [derive] as it is.  The text itself is
    not tried as YAML, and no ValueError is made of it. *)
Theorem derive_unparsable_file_propagates (text content : string) (e : exn)
    (self : loc) (w : world) (f : DataFrame) :
  heap w !! self = Some f →
  read_text text = Ok content →
  safe_load content = Raise e →
  existsb (isinstance_exn e) [FileNotFoundError; OSError] = false →
  derive (PStr text) self w = (Raise e, mk_world (heap w ++ [f]) (warnings_log w)).
Proof.
  intros Hself Hread Hload Hio. unfold derive.
  rewrite bind_run, (copy_run _ _ _ Hself). cbv beta iota. rewrite bind_run.
  cbn [resolve_spec]. unfold try_except at 1. rewrite bind_run. unfold lift.
  by rewrite Hread, Hload, Hio.
Qed.

(** X4.  A specification given as text (inline YAML, or the name of a
    YAML file) has the outcome of the mapping it resolves to, given as a
    dict: the same result or exception, the same store. *)
Theorem derive_text_same_as_its_mapping (spec : pyobj) (d : list (string * string))
    (self : loc) (w : world) :
  (resolve_spec spec w).1 = Ok (PDict d) →
  derive spec self w = derive (PDict d) self w.
Proof. apply derive_resolved. Qed.

(** X5.  When [derive] returns: the caller's columns are the first
    columns of the result, in the caller's order, and the new ones come
    after them; every name of the mapping is a column of the result; a
    column the mapping does not name holds what it held; the index is the
    caller's. *)
Theorem derive_keeps_the_columns (spec : pyobj) (self l' : loc) (w w' : world) :
  derive spec self w = (Ok l', w') →
  ∃ f f' d,
    heap w !! self = Some f
    ∧ heap w' !! l' = Some f'
    ∧ (resolve_spec spec w).1 = Ok (PDict d)
    ∧ columns f `prefix_of` columns f'
    ∧ (∀ col, col ∈ d.*1 → col ∈ columns f')
    ∧ (∀ col, col ∉ d.*1 → get_column f' col = get_column f col)
    ∧ index f' = index f.
Proof.
  intros Hrun. apply derive_ok_loop in Hrun as (f & f1 & d & Hself & Hres & Hloop & -> & ->).
  pose proof Hloop as Heffect.
  eapply derive_entries_effect in Heffect as (f1' & Hw & _ & Hi); [|apply lookup_last].
  injection Hw as Hw. cbn in Hw. rewrite insert_last in Hw.
  apply app_inj_tail in Hw as [_ <-].
  destruct (derive_entries_columns d (length (heap w))
              (mk_world (heap w ++ [f]) (warnings_log w))
              (mk_world (heap w ++ [f1]) (warnings_log w)) f f1 (Ok tt))
    as (Hpre & Hrest & Hkeys); [cbn; apply lookup_last|done|cbn; apply lookup_last|].
  eexists f, _, d. split_and!; [done|apply lookup_last|done|done| |done|done].
  intros col Hcol. by apply Hkeys.
Qed.

(** X6.  Doing an operation again replaces its record: after [derive]
    twice the table says [enrich_derivations] of the second mapping only,
    and after [cast] twice [enrich_dtypes] of the second mapping only; the
    [attrs] are those of one call of the second on the first caller's
    [attrs]. *)
Theorem repeated_operation_replaces_its_record :
  (∀ spec1 spec2 self l1 l2 w w1 w2,
      derive spec1 self w = (Ok l1, w1) →
      derive spec2 l1 w1 = (Ok l2, w2) →
      ∃ f f2 d2,
        heap w !! self = Some f ∧ heap w2 !! l2 = Some f2
        ∧ (resolve_spec spec2 w).1 = Ok (PDict d2)
        ∧ attrs f2 = <["enrich_derivations" := ADict d2]>
                       (<["enrich_derived" := ABool true]> (attrs f)))
  ∧ (∀ dtypes1 dtypes2 self l1 l2 w w1 w2,
      cast dtypes1 self w = (Ok l1, w1) →
      cast dtypes2 l1 w1 = (Ok l2, w2) →
      ∃ f f2,
        heap w !! self = Some f ∧ heap w2 !! l2 = Some f2
        ∧ attrs f2 = <["enrich_dtypes" := ADict dtypes2]>
                       (<["enrich_cast" := ABool true]> (attrs f))).
Proof.
  split.
  - intros spec1 spec2 self l1 l2 w w1 w2 Hfirst Hsecond.
    apply derive_ok_inv in Hfirst as (f & f1 & d1 & Hself & _ & -> & -> & _ & Ha1).
    apply derive_ok_inv in Hsecond as (f1' & f2 & d2 & Hf1 & Hres & -> & -> & _ & Ha2).
    cbn in Hf1. rewrite lookup_last in Hf1. injection Hf1 as <-.
    exists f, f2, d2. split_and!; [done|apply lookup_last| |].
    + destruct (resolve_spec_pure spec2) as [o Ho]. rewrite Ho in Hres |- *.
      by injection Hres as ->.
    + rewrite Ha2, Ha1. apply map_eq. intros k.
      rewrite !lookup_insert. by repeat case_decide.
  - intros dtypes1 dtypes2 self l1 l2 w w1 w2 Hfirst Hsecond.
    apply cast_effect in Hfirst as [(_ & _ & [=])|(f & f1 & Hself & -> & _ & _ & Hok1)].
    destruct (Hok1 l1 eq_refl) as [-> Ha1].
    apply cast_effect in Hsecond as [(_ & _ & [=])|(f1' & f2 & Hf1 & -> & _ & _ & Hok2)].
    destruct (Hok2 l2 eq_refl) as [-> Ha2].
    cbn in Hf1. rewrite lookup_last in Hf1. injection Hf1 as <-.
    exists f, f2. split_and!; [done|apply lookup_last|].
    rewrite Ha2, Ha1. apply map_eq. intros k.
    rewrite !lookup_insert. by repeat case_decide.
Qed.

End DeriveProperties.

(* ================================================================== *)
(** * Further properties of cast                                       *)
(* ================================================================== *)

Section CastProperties.
Context `{!Pandas, !Host, !YData}.

Lemma cast_entries_app es1 es2 (c : loc) (w : world) :
  cast_entries (es1 ++ es2) c w = (cast_entries es1 c;; cast_entries es2 c) w.
Proof.
  revert w. induction es1 as [|[col dt] es1 IH]; intros w; cbn [cast_entries app].
  - reflexivity.
  - rewrite !bind_run. destruct (load c w) as [[frame|e] w1]; [|reflexivity].
    rewrite !bind_run.
    destruct ((match get_column frame col with
               | Some column => converted ← lift (astype column dt); setitem c col converted
               | None => mret tt
               end) w1) as [[[]|e] w2]; [|reflexivity].
    rewrite IH. reflexivity.
Qed.

(** Whatever the loop does, a column the mapping does not name holds what
    it held. *)
Lemma cast_entries_untouched es (c : loc) (w w' : world) (f f' : DataFrame) (o : outcome unit) :
  heap w !! c = Some f →
  cast_entries es c w = (o, w') →
  heap w' !! c = Some f' →
  ∀ col, col ∉ es.*1 → get_column f' col = get_column f col.
Proof.
  revert w f. induction es as [|[k dt] es IH]; intros w f Hc Hrun Hc' col Hcol.
  - cbn in Hrun. injection Hrun as <- <-. rewrite Hc in Hc'. by injection Hc' as <-.
  - cbn in Hcol. apply not_elem_of_cons in Hcol as [Hne Hcol].
    destruct (get_column f k) as [s|] eqn:Hk.
    + destruct (astype s dt) as [s'|e] eqn:Hconv.
      * rewrite (cast_entries_cons_present _ _ _ _ _ _ _ _ Hc Hk Hconv) in Hrun.
        assert (Hc1 : heap (mk_world (<[c := set_column f k s']> (heap w)) (warnings_log w))
                      !! c = Some (set_column f k s')).
        { cbn. apply list_lookup_insert_eq. by eapply lookup_lt_Some. }
        rewrite (IH _ _ Hc1 Hrun Hc' col Hcol).
        unfold get_column. cbn. by apply assoc_set_ne.
      * rewrite (cast_entries_cons_raise _ _ _ _ _ _ _ _ Hc Hk Hconv) in Hrun.
        injection Hrun as <- <-. rewrite Hc in Hc'. by injection Hc' as <-.
    + rewrite (cast_entries_cons_absent _ _ _ _ _ _ Hc Hk) in Hrun. by eapply IH.
Qed.

(** X7.  The first conversion that fails ends [cast]: the exception of
    [astype] is raised as it is, after the warning about absent columns
    (if any) has been emitted; the entries after it are not converted and
    no provenance is written. *)
Theorem cast_failure_propagates (earlier later : list (string * string))
    (col dt : string) (self : loc) (w : world) (f f1 : DataFrame) (s : Series) (e : exn) :
  let dtype_spec := earlier ++ (col, dt) :: later in
  let warned := warnings_log w ++ cast_warnings dtype_spec f in
  heap w !! self = Some f →
  cast_entries earlier (length (heap w)) (mk_world (heap w ++ [f]) warned)
  = (Ok tt, mk_world (heap w ++ [f1]) warned) →
  get_column f1 col = Some s →
  astype s dt = Raise e →
  cast dtype_spec self w = (Raise e, mk_world (heap w ++ [f1]) warned)
  ∧ attrs f1 = attrs f.
Proof.
  intros dtype_spec warned Hself Hearlier Hcol Hconv. split.
  - rewrite (cast_run _ _ _ _ Hself), bind_run. unfold dtype_spec at 1.
    rewrite cast_entries_app, bind_run. fold dtype_spec. fold warned.
    rewrite Hearlier. cbv beta iota.
    by rewrite (cast_entries_cons_raise _ _ _ _ _ f1 s e) by (apply lookup_last || done).
  - eapply cast_entries_effect in Hearlier as (f1' & Hw & Ha & _); [|apply lookup_last].
    injection Hw as Hw. cbn in Hw. rewrite insert_last in Hw.
    by apply app_inj_tail in Hw as [_ ->].
Qed.

(** X8.  Whenever [cast] returns, whatever the mapping: the result has
    the caller's columns, in the caller's order, and the caller's index;
    no column is made for a requested name that is absent; a column the
    mapping does not name holds what it held. *)
Theorem cast_keeps_the_shape (dtype_spec : list (string * string)) (self l' : loc)
    (w w' : world) :
  cast dtype_spec self w = (Ok l', w') →
  ∃ f f',
    heap w !! self = Some f
    ∧ heap w' !! l' = Some f'
    ∧ columns f' = columns f
    ∧ index f' = index f
    ∧ (∀ col, col ∉ columns f → get_column f' col = None)
    ∧ (∀ col, col ∉ dtype_spec.*1 → get_column f' col = get_column f col).
Proof.
  intros Hrun. pose proof Hrun as Heffect.
  apply cast_effect in Heffect as [(_ & _ & [=])|(f & f' & Hself & -> & Hi & Hcols & Hok)].
  destruct (Hok l' eq_refl) as [-> _].
  exists f, f'. split_and!; [done|apply lookup_last|done|done| |].
  - intros col Hcol. apply assoc_None. by rewrite <-Hcols in Hcol.
  - rewrite (cast_run _ _ _ _ Hself), bind_run in Hrun.
    destruct (cast_entries _ _ _) as [[[]|e] w1] eqn:Hloop; [|discriminate].
    pose proof Hloop as Hloop'.
    eapply cast_entries_effect in Hloop' as (f1 & -> & _); [|apply lookup_last].
    cbn [heap warnings_log] in Hrun, Hloop. rewrite insert_last in Hrun, Hloop.
    rewrite provenance_run in Hrun. injection Hrun as Hrun.
    apply app_inj_tail in Hrun as [_ <-].
    intros col Hcol. unfold get_column. cbn. fold (get_column f1 col).
    eapply (cast_entries_untouched dtype_spec (length (heap w))
              (mk_world (heap w ++ [f]) _) (mk_world (heap w ++ [f1]) _) f f1);
      [cbn; apply lookup_last|exact Hloop|cbn; apply lookup_last|done].
Qed.

End CastProperties.

(* ================================================================== *)
(** * Further properties of lookup and validate                        *)
(* ================================================================== *)

Section LookupProperties.
Context `{!Pandas, !Host, !YData}.

(** The policy either leaves the world as it is, or, under "warn" and
    with a positive count, returns after one warning. *)
Lemma apply_on_missing_cases (on_missing : string) (n : Z) (dst : list string)
    (w w' : world) (o : outcome unit) :
  apply_on_missing on_missing n dst w = (o, w') →
  w' = w
  ∨ (on_missing = "warn" ∧ n > 0 ∧ o = Ok tt
     ∧ w' = mk_world (heap w)
              (warnings_log w
               ++ [mk_warning UserWarning [Lit "Lookup resulted in "; FInt n;
                                           Lit " missing values in "; FList dst]])).
Proof.
  unfold apply_on_missing.
  repeat case_decide; intros [= <- <-]; first [by left | right; by split_and!].
Qed.

(** [lookup] without a resolver depends on the policy through the policy
    step only. *)
Lemma lookup_policy_congruence (p q : string) (src : source) (dst : dst_arg)
    (self : loc) (w : world) :
  (∀ n d w0, apply_on_missing p n d w0 = apply_on_missing q n d w0) →
  lookup src dst None p self w = lookup src dst None q self w.
Proof.
  intros Hsame. unfold lookup. rewrite !bind_run.
  destruct (copy self w) as [[c|e] w1]; [|done].
  rewrite !bind_run. destruct src as [src_l|s|n]; [|done..].
  rewrite !bind_run. destruct (load src_l w1) as [[sf|e] w2]; [|done].
  cbv zeta. destruct (filter _ (as_list dst)) as [|m ms]; [|done].
  rewrite !bind_run. destruct (load c w2) as [[left|e] w3]; [|done].
  rewrite !bind_run. destruct (lift (select_columns sf (as_list dst)) w3) as [[right|e] w4];
    [|done].
  rewrite !bind_run. destruct (lift (merge_on_index left right _) w4) as [[merged|e] w5];
    [|done].
  rewrite !bind_run. destruct (alloc merged w5) as [[result|e] w6]; [|done].
  rewrite !bind_run. destruct (lift (select_columns merged (as_list dst)) w6)
    as [[selected|e] w7]; [|done].
  rewrite !bind_run. by rewrite Hsame.
Qed.

(** X9.  A destination column that the source table does not have:
    ValueError listing the absent names and the source's columns, whatever
    the policy; nothing is joined, counted or recorded. *)
Theorem lookup_absent_destination_columns (src_l : loc) (dst : dst_arg) (on_missing : string)
    (self : loc) (w : world) (f sf : DataFrame) (absent : list string) :
  heap w !! self = Some f →
  heap w !! src_l = Some sf →
  filter (λ col, col ∉ columns sf) (as_list dst) = absent →
  absent ≠ [] →
  lookup (SrcTable src_l) dst None on_missing self w
  = (Raise (mk_exn ValueError
              [Lit "Columns "; FList absent;
               Lit " not found in source DataFrame. Available columns: ";
               FList (columns sf)]),
     mk_world (heap w ++ [f]) (warnings_log w)).
Proof.
  intros Hself Hsrc Habsent Hne. unfold lookup.
  rewrite bind_run, (copy_run _ _ _ Hself). cbv beta iota.
  rewrite bind_run. cbn [mbind]. rewrite bind_run.
  rewrite (load_run _ _ sf) by by apply lookup_old. cbv beta iota zeta.
  rewrite Habsent. by destruct absent.
Qed.

(** X10.  [lookup] without a resolver warns at most once, and only under
    [on_missing="warn"], when it returns: under every other policy, and
    whenever it raises, the warnings are as they were. *)
Theorem lookup_warns_only_under_warn (src : source) (dst : dst_arg) (on_missing : string)
    (self : loc) (w : world) :
  let r := lookup src dst None on_missing self w in
  warnings_log r.2 = warnings_log w
  ∨ (on_missing = "warn" ∧ is_ok r.1
     ∧ ∃ n, n > 0
            ∧ warnings_log r.2
              = warnings_log w
                ++ [mk_warning UserWarning [Lit "Lookup resulted in "; FInt n;
                                            Lit " missing values in "; FList (as_list dst)]]).
Proof.
  cbv zeta. destruct (lookup src dst None on_missing self w) as [o w'] eqn:Hrun.
  cbn [fst snd]. revert Hrun. unfold lookup. rewrite bind_run.
  destruct (heap w !! self) as [f|] eqn:Hself.
  2:{ unfold copy. rewrite bind_run. unfold load. rewrite Hself.
      intros [= <- <-]. by left. }
  rewrite (copy_run _ _ _ Hself). cbv beta iota.
  set (w1 := mk_world (heap w ++ [f]) (warnings_log w)).
  rewrite bind_run. destruct src as [src_l|s|n]; cbn -[w1].
  2,3: intros [= <- <-]; by left.
  rewrite bind_run. unfold load at 1.
  destruct (heap w1 !! src_l) as [sf|]; [|intros [= <- <-]; by left].
  cbv beta iota zeta.
  destruct (filter _ (as_list dst)) as [|m ms]; [|intros [= <- <-]; by left].
  rewrite bind_run, (load_run _ w1 f) by apply lookup_last. cbv beta iota.
  rewrite bind_run. unfold lift at 1.
  destruct (select_columns sf _) as [right|e]; [|intros [= <- <-]; by left].
  cbv beta iota. rewrite bind_run. unfold lift at 1.
  destruct (merge_on_index f right _) as [merged|e]; [|intros [= <- <-]; by left].
  cbv beta iota. rewrite bind_run. unfold alloc at 1. cbv beta iota.
  set (w2 := mk_world (heap w1 ++ [merged]) (warnings_log w1)).
  rewrite bind_run. unfold lift at 1.
  destruct (select_columns merged _) as [selected|e]; [|intros [= <- <-]; by left].
  cbv beta iota zeta. rewrite bind_run.
  destruct (apply_on_missing _ _ _ w2) as [o3 w3] eqn:Hpolicy.
  apply apply_on_missing_cases in Hpolicy as [->|(-> & Hpos & -> & ->)].
  - destruct o3 as [[]|e]; [|intros [= <- <-]; by left].
    unfold mret, M_ret. cbv beta iota.
    rewrite bind_run, (attrs_setitem_run _ w2 merged) by apply lookup_last.
    intros [= <- <-]. by left.
  - unfold mret, M_ret. cbv beta iota.
    rewrite bind_run, (attrs_setitem_run _ _ merged) by apply lookup_last.
    intros [= <- <-]. right. split_and!; [done|done|]. by eexists.
Qed.

(** X11.  The policy is not checked: every [on_missing] other than
    "raise" and "warn" (a misspelt one too) has the outcome of "ignore". *)
Theorem lookup_unknown_policy_is_ignore (on_missing : string) (src : source) (dst : dst_arg)
    (resolver : option Resolver) (self : loc) (w : world) :
  on_missing ≠ "raise" → on_missing ≠ "warn" →
  lookup src dst resolver on_missing self w = lookup src dst resolver "ignore" self w.
Proof.
  intros Hnr Hnw. destruct resolver as [r|]; [done|].
  apply lookup_policy_congruence. intros n d w0. unfold apply_on_missing.
  by rewrite !(decide_False (P := on_missing = _)), !(decide_False (P := "ignore" = _)).
Qed.

(** X12.  [validate] has no handler: an exception of the schema's
    [validate] (called with [lazy=False]) is the exception of the call,
    the world is as the schema left it, and no provenance is written. *)
Theorem validate_failure_propagates (schema : schema_arg) (self : loc) (w w1 : world) (e : exn) :
  schema_validate (schema_of schema) self false w = (Raise e, w1) →
  validate schema self w = (Raise e, w1).
Proof.
  intros Hschema. unfold validate. cbv zeta. by rewrite bind_run, Hschema.
Qed.

End LookupProperties.

(* ================================================================== *)
(** * Further properties of profile and config                         *)
(* ================================================================== *)

Section ProfileProperties.
Context `{!Pandas, !Host, !YData}.

Lemma filter_none {A} (P : A → Prop) `{!∀ x, Decision (P x)} (l : list A) :
  (∀ x, x ∈ l → ¬ P x) → filter P l = [].
Proof.
  induction l as [|a l IH]; intros Hnone; [done|].
  rewrite filter_cons, decide_False by (apply Hnone; apply list_elem_of_here).
  apply IH. intros x Hx. apply Hnone. by apply list_elem_of_further.
Qed.

(** The fallback branch of [profile], from the world in which the
    ImportError was caught. *)
Lemma profile_handler_run (self : loc) (w : world) (f : DataFrame) :
  heap w !! self = Some f →
  (warn ImportWarning
     [Lit "ydata-profiling not installed. Install with: pip install ydata-profiling"];;
   d ← _basic_profile self; mret (BasicProfile d)) w
  = match describe f with
    | Ok described =>
        (Ok (BasicProfile [("shape", StShape (shape f));
                           ("dtypes", StDtypes (dtypes_to_dict f));
                           ("missing", StMissing (isnull_sum_to_dict f));
                           ("describe", StDescribe described)]),
         mk_world (heap w)
           (warnings_log w
            ++ [mk_warning ImportWarning
                  [Lit "ydata-profiling not installed. Install with: pip install ydata-profiling"]]))
    | Raise e =>
        (Raise e,
         mk_world (heap w)
           (warnings_log w
            ++ [mk_warning ImportWarning
                  [Lit "ydata-profiling not installed. Install with: pip install ydata-profiling"]]))
    end.
Proof.
  intros Hself. rewrite bind_run. unfold warn at 1. cbv beta iota.
  rewrite bind_run. unfold _basic_profile. rewrite bind_run.
  rewrite (load_run _ _ f) by done. cbv beta iota.
  rewrite bind_run. unfold lift at 1. by destruct (describe f).
Qed.

(** X13.  With ydata-profiling present, [profile] returns the report
    that [ProfileReport] builds from the caller's own object (no copy is
    made) and the keyword arguments as given; with [lazy=True] the
    keywords [minimal=True] and [lazy=True] are put before them.  The
    world is as the constructor left it: [profile] itself warns nothing
    and writes nothing. *)
Theorem profile_returns_the_report (cls : loc → kwargs → M report) (lazy : bool)
    (kw : kwargs) (self : loc) (w w' : world) (r : report) :
  import_ProfileReport = Ok cls →
  (lazy = true → ("minimal" ∉ kw.*1) ∧ ("lazy" ∉ kw.*1)) →
  cls self (if lazy then ("minimal", KBool true) :: ("lazy", KBool true) :: kw else kw) w
  = (Ok r, w') →
  profile "ydata" lazy kw self w = (Ok (ProfileReport r), w').
Proof.
  intros Himport Hfree Hcls. unfold profile. rewrite decide_True by done.
  unfold try_except. rewrite bind_run. unfold lift at 1. rewrite Himport.
  cbv beta iota. rewrite bind_run. destruct lazy.
  - unfold call_minimal_lazy. destruct (Hfree eq_refl) as [Hm Hl].
    rewrite filter_none.
    + by rewrite Hcls.
    + intros k Hk [->| ->]; done.
  - by rewrite Hcls.
Qed.

(** X14.  [profile(lazy=True, minimal=...)] gives [ProfileReport] the
    keyword [minimal] twice: TypeError is raised, which is no ImportError,
    so there is no report, no fallback and no warning. *)
Theorem profile_lazy_refuses_minimal (cls : loc → kwargs → M report) (kw : kwargs)
    (self : loc) (w : world) :
  import_ProfileReport = Ok cls →
  "minimal" ∈ kw.*1 →
  ∃ k, profile "ydata" true kw self w
       = (Raise (mk_exn TypeError
                   [Lit "got multiple values for keyword argument '"; FStr k; Lit "'"]), w)
       ∧ (k = "minimal" ∨ k = "lazy").
Proof.
  intros Himport Hin. unfold profile. rewrite decide_True by done.
  unfold try_except. rewrite bind_run. unfold lift at 1. rewrite Himport.
  cbv beta iota. rewrite bind_run. unfold call_minimal_lazy.
  destruct (filter _ kw.*1) as [|k ks] eqn:Hfilter.
  - destruct (filter_nil_not_elem_of _ _ "minimal" Hfilter); [by left|done].
  - assert (Hk : k ∈ filter (λ k, k = "minimal" ∨ k = "lazy") kw.*1)
      by (rewrite Hfilter; apply list_elem_of_here).
    apply list_elem_of_filter in Hk as [Hk _].
    exists k. split; [|done]. by destruct Hk as [-> | ->].
Qed.

(** X15.  The handler covers the construction of the report as well as
    the import, with [lazy=True] as with [lazy=False]: when
    [ProfileReport(...)] raises ImportError, [profile] warns and returns
    the basic statistics, computed in the world the constructor left; any
    other exception of the constructor is the exception of [profile],
    without warning. *)
Theorem profile_constructor_failure (cls : loc → kwargs → M report) (lazy : bool)
    (kw : kwargs) (self : loc) (w w' : world) (e : exn) :
  import_ProfileReport = Ok cls →
  (lazy = true → ("minimal" ∉ kw.*1) ∧ ("lazy" ∉ kw.*1)) →
  cls self (if lazy then ("minimal", KBool true) :: ("lazy", KBool true) :: kw else kw) w
  = (Raise e, w') →
  (isinstance_exn e ImportError = false →
     profile "ydata" lazy kw self w = (Raise e, w'))
  ∧ (isinstance_exn e ImportError = true →
     ∀ f described,
       heap w' !! self = Some f → describe f = Ok described →
       profile "ydata" lazy kw self w
       = (Ok (BasicProfile [("shape", StShape (shape f));
                            ("dtypes", StDtypes (dtypes_to_dict f));
                            ("missing", StMissing (isnull_sum_to_dict f));
                            ("describe", StDescribe described)]),
          mk_world (heap w')
            (warnings_log w'
             ++ [mk_warning ImportWarning
                   [Lit "ydata-profiling not installed. Install with: pip install ydata-profiling"]]))).
Proof.
  intros Himport Hfree Hcls.
  assert (Hcall : (if lazy then call_minimal_lazy cls self kw else cls self kw) w
                  = (Raise e, w')).
  { destruct lazy; [|done]. unfold call_minimal_lazy.
    destruct (Hfree eq_refl) as [Hm Hl]. rewrite filter_none; [done|].
    intros k Hk [->| ->]; done. }
  assert (Hrun : profile "ydata" lazy kw self w
                 = if isinstance_exn e ImportError
                   then (warn ImportWarning
                           [Lit "ydata-profiling not installed. Install with: pip install ydata-profiling"];;
                         d ← _basic_profile self; mret (BasicProfile d)) w'
                   else (Raise e, w')).
  { unfold profile. rewrite decide_True by done.
    unfold try_except. rewrite bind_run. unfold lift at 1. rewrite Himport.
    cbv beta iota. rewrite bind_run, Hcall. cbn [existsb]. by rewrite orb_false_r. }
  split.
  - intros Hinst. by rewrite Hrun, Hinst.
  - intros Hinst f described Hself Hdescribe.
    by rewrite Hrun, Hinst, (profile_handler_run _ _ _ Hself), Hdescribe.
Qed.

(** X16.  In the fallback nothing catches [describe]: when the import
    raises ImportError and pandas cannot describe the table (a table
    without columns, for one), that exception is the exception of
    [profile], after the ImportWarning has been emitted. *)
Theorem profile_fallback_describe_failure (lazy : bool) (kw : kwargs) (self : loc)
    (w : world) (f : DataFrame) (e e' : exn) :
  import_ProfileReport = Raise e →
  isinstance_exn e ImportError = true →
  heap w !! self = Some f →
  describe f = Raise e' →
  profile "ydata" lazy kw self w
  = (Raise e',
     mk_world (heap w)
       (warnings_log w
        ++ [mk_warning ImportWarning
              [Lit "ydata-profiling not installed. Install with: pip install ydata-profiling"]])).
Proof.
  intros Himport Hinst Hself Hdescribe. unfold profile.
  rewrite decide_True by done. unfold try_except.
  rewrite bind_run. unfold lift at 1. rewrite Himport. cbn [existsb]. rewrite Hinst.
  cbn [orb]. by rewrite (profile_handler_run _ _ _ Hself), Hdescribe.
Qed.

End ProfileProperties.

Section ConfigProperties.

Lemma dict_update_lookup_absent {V} (kw d : list (string * V)) (k : string) :
  k ∉ kw.*1 → assoc k (dict_update d kw) = assoc k d.
Proof.
  revert d. induction kw as [|[k' v'] kw IH]; intros d Hk; [done|].
  cbn in Hk. apply not_elem_of_cons in Hk as [Hne Hk].
  unfold dict_update. cbn. fold (dict_update (assoc_set k' v' d) kw).
  rewrite IH by done. by apply assoc_set_ne.
Qed.

Lemma dict_update_keys {V} (kw d : list (string * V)) :
  d.*1 `prefix_of` (dict_update d kw).*1.
Proof.
  revert d. induction kw as [|[k v] kw IH]; intros d; [done|].
  unfold dict_update. cbn. fold (dict_update (assoc_set k v d) kw).
  etrans; [|apply IH]. clear. induction d as [|[k' v'] d IHd]; cbn.
  - apply prefix_nil.
  - destruct (decide (k = k')) as [->|]; cbn; [done|]. by apply prefix_cons.
Qed.

(** X17.  [config] with keyword arguments merges them into the accessor's configuration: an
    option given in the call has the value given (keyword arguments have
    no name twice), an option not given keeps the value it had, the
    options that were there stay in their order with new ones after
    them, and the accessor remains bound to the same table. *)
Theorem config_merges_options (kw : kwargs) (self : EnrichAccessor) :
  NoDup kw.*1 →
  (∀ k v, (k, v) ∈ kw → assoc k (_config (config kw self)) = Some v)
  ∧ (∀ k, k ∉ kw.*1 → assoc k (_config (config kw self)) = assoc k (_config self))
  ∧ (_config self).*1 `prefix_of` (_config (config kw self)).*1
  ∧ _obj (config kw self) = _obj self.
Proof.
  intros Hnodup. split_and!; [|by apply dict_update_lookup_absent|apply dict_update_keys|done].
  cbn. generalize (_config self). induction kw as [|[k' v'] kw IH]; intros d k v Hin.
  - by apply elem_of_nil in Hin.
  - apply NoDup_cons in Hnodup as [Hfresh Hnodup]. cbn in Hfresh.
    unfold dict_update. cbn. fold (dict_update (assoc_set k' v' d) kw).
    apply elem_of_cons in Hin as [[= -> ->]|Hin].
    + rewrite dict_update_lookup_absent by done. apply assoc_set_eq.
    + by apply IH.
Qed.

End ConfigProperties.

(* ================================================================== *)
(** * The further properties on the tables of the test suite           *)
(* ================================================================== *)

(** [test_derive_invalid_expression], between two entries that are fine. *)
Lemma derive_failure_names_the_entry_witness :
  derive (PDict [("c", "a + b"); ("bad", "nonexistent_col + 1"); ("d", "a * b")])
    0%nat (world_of [table_ab])
  = (Raise (mk_exn ValueError
              [Lit "Failed to derive column '"; FStr "bad";
               Lit "' with expression '"; FStr "nonexistent_col + 1"; Lit "': ";
               Lit "name '"; FStr "nonexistent_col"; Lit "' is not defined"]),
     world_of [table_ab; set_column table_ab "c" (int_column [5; 7; 9])]).
Proof.
  exact (proj1 (derive_failure_names_the_entry (H := simple_pandas) (H0 := example_host)
                  [("c", "a + b")] [("d", "a * b")] "bad" "nonexistent_col + 1"
                  0%nat (world_of [table_ab]) table_ab
                  (set_column table_ab "c" (int_column [5; 7; 9]))
                  (mk_exn NameError [Lit "name '"; FStr "nonexistent_col"; Lit "' is not defined"])
                  eq_refl eq_refl eq_refl eq_refl)).
Defined.

(** [derive("nonexistent.yaml")]: no such file, and the text is a YAML
    scalar. *)
Lemma derive_non_mapping_raises_attribute_error_witness :
  (derive (PStr "nonexistent.yaml") 0%nat (world_of [table_ab])).1
  = Raise (mk_exn AttributeError
             [FType "<class 'str'>"; Lit " object has no attribute 'items'"]).
Proof.
  rewrite (derive_non_mapping_raises_attribute_error (H := simple_pandas) (H0 := example_host)
             (PStr "nonexistent.yaml") (PStr "nonexistent.yaml") 0%nat (world_of [table_ab])
             table_ab eq_refl eq_refl); [reflexivity|].
  intros d. discriminate.
Defined.

(** A file that holds "a: b: c". *)
Lemma derive_unparsable_file_propagates_witness :
  derive (H0 := host_with [("broken.yaml", "a: b: c")]) (PStr "broken.yaml")
    0%nat (world_of [table_ab])
  = (Raise (mk_exn YAMLError [Lit "could not parse the document"]),
     world_of [table_ab; table_ab]).
Proof.
  exact (derive_unparsable_file_propagates (H := simple_pandas)
           (H0 := host_with [("broken.yaml", "a: b: c")])
           "broken.yaml" "a: b: c" _ 0%nat (world_of [table_ab]) table_ab
           eq_refl eq_refl eq_refl eq_refl).
Defined.

(** The file of the example, and inline YAML. *)
Lemma derive_text_same_as_its_mapping_witness :
  derive (PStr "derived_columns.yaml") 0%nat (world_of [table_sales])
  = derive (PDict [("total", "price*quantity")]) 0%nat (world_of [table_sales])
  ∧ derive (PStr "c: a + b") 0%nat (world_of [table_ab])
    = derive (PDict [("c", "a + b")]) 0%nat (world_of [table_ab]).
Proof.
  split.
  - exact (derive_text_same_as_its_mapping (H := simple_pandas) (H0 := example_host)
             (PStr "derived_columns.yaml") _ 0%nat (world_of [table_sales]) eq_refl).
  - exact (derive_text_same_as_its_mapping (H := simple_pandas) (H0 := example_host)
             (PStr "c: a + b") _ 0%nat (world_of [table_ab]) eq_refl).
Defined.

(** [derive({"b": "a * 2", "c": "a + b"})]: b is replaced where it
    stands, c is added at the end. *)
Lemma derive_keeps_the_columns_witness :
  ∃ f', heap (derive (PDict [("b", "a * 2"); ("c", "a + b")]) 0%nat
                (world_of [table_ab])).2 !! 1%nat = Some f'
        ∧ ["a"; "b"] `prefix_of` columns f'
        ∧ get_column f' "a" = Some (int_column [1; 2; 3]).
Proof.
  destruct (derive_keeps_the_columns (H := simple_pandas) (H0 := example_host)
              (PDict [("b", "a * 2"); ("c", "a + b")]) 0%nat 1%nat
              (world_of [table_ab]) _ eq_refl)
    as (f & f' & d & Hf & Hf' & Hd & Hpre & _ & Hrest & _).
  injection Hf as <-. injection Hd as <-.
  exists f'. split_and!; [exact Hf'|exact Hpre|].
  rewrite Hrest; [reflexivity|]. compute_done.
Defined.

(** [derive] twice and [cast] twice on the table of the tests. *)
Lemma repeated_operation_replaces_its_record_witness :
  (∃ f2, heap ((l1 ← derive (PDict [("c", "a + b")]) 0%nat;
                derive (PDict [("d", "a * b")]) l1) (world_of [table_ab])).2 !! 2%nat
         = Some f2
         ∧ attrs f2 !! "enrich_derivations" = Some (ADict [("d", "a * b")]))
  ∧ (∃ f2, heap ((l1 ← cast [("a", "float64")] 0%nat;
                  cast [("b", "int32")] l1) (world_of [table_ab])).2 !! 2%nat
           = Some f2
           ∧ attrs f2 !! "enrich_dtypes" = Some (ADict [("b", "int32")])).
Proof.
  pose proof (repeated_operation_replaces_its_record
                (H := simple_pandas) (H0 := example_host)) as [Hderive Hcast].
  split.
  - destruct (Hderive (PDict [("c", "a + b")]) (PDict [("d", "a * b")]) 0%nat 1%nat 2%nat
                (world_of [table_ab]) _ _ eq_refl eq_refl)
      as (f & f2 & d2 & _ & Hf2 & Hd2 & Ha).
    injection Hd2 as <-. exists f2. split; [exact Hf2|]. rewrite Ha. by simplify_map_eq.
  - destruct (Hcast [("a", "float64")] [("b", "int32")] 0%nat 1%nat 2%nat
                (world_of [table_ab]) _ _ eq_refl eq_refl)
      as (f & f2 & _ & Hf2 & Ha).
    exists f2. split; [exact Hf2|]. rewrite Ha. by simplify_map_eq.
Defined.

(** The sales table: [quantity] converts, [product] ("A", "B", "C") has
    no integer. *)
Lemma cast_failure_propagates_witness :
  cast [("quantity", "float64"); ("product", "int64"); ("price", "int64")]
    0%nat (world_of [table_sales])
  = (Raise (mk_exn ValueError [Lit "invalid literal for int() with base 10: "; FStr "A"]),
     world_of [table_sales; set_column table_sales "quantity"
                              (mk_series "float64"
                                 [CFloat (ArithEval.Z2Qc 2); CFloat (ArithEval.Z2Qc 3);
                                  CFloat (ArithEval.Z2Qc 1)])]).
Proof.
  exact (proj1 (cast_failure_propagates (H := simple_pandas)
                  [("quantity", "float64")] [("price", "int64")] "product" "int64"
                  0%nat (world_of [table_sales]) table_sales _ _ _
                  eq_refl eq_refl eq_refl eq_refl)).
Defined.

(** [test_cast_with_missing_columns]. *)
Lemma cast_keeps_the_shape_witness :
  ∃ f', heap (cast [("a", "int64"); ("nonexistent", "float32")] 0%nat
                (world_of [table_ab])).2 !! 1%nat = Some f'
        ∧ columns f' = ["a"; "b"]
        ∧ get_column f' "nonexistent" = None
        ∧ get_column f' "b" = Some (int_column [4; 5; 6]).
Proof.
  destruct (cast_keeps_the_shape (H := simple_pandas)
              [("a", "int64"); ("nonexistent", "float32")] 0%nat 1%nat
              (world_of [table_ab]) _ eq_refl)
    as (f & f' & Hf & Hf' & Hcols & _ & Habsent & Hrest).
  injection Hf as <-. exists f'. split_and!; [exact Hf'|exact Hcols| |].
  - apply Habsent. compute_done.
  - rewrite Hrest; [reflexivity|]. compute_done.
Defined.

(** [test_lookup_with_missing_columns]. *)
Lemma lookup_absent_destination_columns_witness :
  lookup (SrcTable 1%nat) (DstStr "nonexistent_col") None "ignore" 0%nat
    (world_of [table_ab; table_prices])
  = (Raise (mk_exn ValueError
              [Lit "Columns "; FList ["nonexistent_col"];
               Lit " not found in source DataFrame. Available columns: ";
               FList ["price"]]),
     world_of [table_ab; table_prices; table_ab]).
Proof.
  apply (lookup_absent_destination_columns (H := simple_pandas)
           1%nat (DstStr "nonexistent_col") "ignore" 0%nat
           (world_of [table_ab; table_prices]) table_ab table_prices ["nonexistent_col"]
           eq_refl eq_refl eq_refl).
  discriminate.
Defined.

(** A misspelt policy on a source that matches no row. *)
Lemma lookup_unknown_policy_is_ignore_witness :
  lookup (SrcTable 1%nat) (DstStr "price") None "Raise" 0%nat
    (world_of [table_ab; table_prices_elsewhere])
  = lookup (SrcTable 1%nat) (DstStr "price") None "ignore" 0%nat
      (world_of [table_ab; table_prices_elsewhere]).
Proof.
  apply (lookup_unknown_policy_is_ignore (H := simple_pandas)); discriminate.
Defined.

(** [test_validate_failure]: the schema wants floats in a. *)
Lemma validate_failure_propagates_witness :
  validate (SchemaInstance (copying_schema (check_dtypes [("a", "float64")]) "schema"))
    0%nat (world_of [table_ab])
  = (Raise (mk_exn SchemaError [Lit "schema check failed for "; FList ["a"]]),
     world_of [table_ab; table_ab]).
Proof.
  exact (validate_failure_propagates
           (SchemaInstance (copying_schema (check_dtypes [("a", "float64")]) "schema"))
           0%nat (world_of [table_ab]) _ _ eq_refl).
Defined.

(** [profile(lazy=True, title="t")] with the library present. *)
Lemma profile_returns_the_report_witness :
  profile (H1 := ydata_present) "ydata" true [("title", KStr "t")] 0%nat (world_of [table_ab])
  = (Ok (ProfileReport (H1 := ydata_present)
           (table_ab, [("minimal", KBool true); ("lazy", KBool true); ("title", KStr "t")])),
     world_of [table_ab]).
Proof.
  apply (profile_returns_the_report (H := simple_pandas) (H1 := ydata_present)
           (λ obj kw, df ← load obj; mret (df, kw)) true [("title", KStr "t")] 0%nat
           (world_of [table_ab]) (world_of [table_ab]) _ eq_refl).
  - intros _. split; compute_done.
  - reflexivity.
Defined.

(** [profile(lazy=True, minimal=False)] with the library present. *)
Lemma profile_lazy_refuses_minimal_witness :
  ∃ k, profile (H1 := ydata_present) "ydata" true [("minimal", KBool false)] 0%nat
         (world_of [table_ab])
       = (Raise (mk_exn TypeError
                   [Lit "got multiple values for keyword argument '"; FStr k; Lit "'"]),
          world_of [table_ab]).
Proof.
  destruct (profile_lazy_refuses_minimal (H := simple_pandas) (H1 := ydata_present)
              (λ obj kw, df ← load obj; mret (df, kw)) [("minimal", KBool false)] 0%nat
              (world_of [table_ab]) eq_refl) as (k & Hrun & _).
  - compute_done.
  - by exists k.
Defined.

(** A constructor that raises ModuleNotFoundError, under [lazy=True] and
    under [lazy=False], and one that raises ValueError. *)
Lemma profile_constructor_failure_witness :
  (profile (H1 := ydata_failing ModuleNotFoundError) "ydata" true [("title", KStr "t")] 0%nat
     (world_of [table_ab])).1
  = Ok (BasicProfile (H1 := ydata_failing ModuleNotFoundError)
          [("shape", StShape (3, 2));
           ("dtypes", StDtypes [("a", "int64"); ("b", "int64")]);
           ("missing", StMissing [("a", 0); ("b", 0)]);
           ("describe", StDescribe [("a", 3); ("b", 3)])])
  ∧ (profile (H1 := ydata_failing ModuleNotFoundError) "ydata" false [] 0%nat
       (world_of [table_ab])).1
    = Ok (BasicProfile (H1 := ydata_failing ModuleNotFoundError)
            [("shape", StShape (3, 2));
             ("dtypes", StDtypes [("a", "int64"); ("b", "int64")]);
             ("missing", StMissing [("a", 0); ("b", 0)]);
             ("describe", StDescribe [("a", 3); ("b", 3)])])
  ∧ (profile (H1 := ydata_failing ValueError) "ydata" true [] 0%nat (world_of [table_ab])).1
    = Raise (mk_exn ValueError [Lit "ProfileReport could not be built"]).
Proof.
  split_and!.
  - destruct (profile_constructor_failure (H := simple_pandas)
               (H1 := ydata_failing ModuleNotFoundError)
               _ true [("title", KStr "t")] 0%nat (world_of [table_ab]) (world_of [table_ab])
               (mk_exn ModuleNotFoundError [Lit "ProfileReport could not be built"]) eq_refl)
      as [_ Hfallback].
    + intros _. split; compute_done.
    + reflexivity.
    + by rewrite (Hfallback eq_refl table_ab _ eq_refl eq_refl).
  - destruct (profile_constructor_failure (H := simple_pandas)
               (H1 := ydata_failing ModuleNotFoundError)
               _ false [] 0%nat (world_of [table_ab]) (world_of [table_ab])
               (mk_exn ModuleNotFoundError [Lit "ProfileReport could not be built"]) eq_refl)
      as [_ Hfallback].
    + intros [=].
    + reflexivity.
    + by rewrite (Hfallback eq_refl table_ab _ eq_refl eq_refl).
  - destruct (profile_constructor_failure (H := simple_pandas) (H1 := ydata_failing ValueError)
               _ true [] 0%nat (world_of [table_ab]) (world_of [table_ab])
               (mk_exn ValueError [Lit "ProfileReport could not be built"]) eq_refl)
      as [Hpropagate _].
    + intros _. split; compute_done.
    + reflexivity.
    + by rewrite (Hpropagate eq_refl).
Defined.

(** [pd.DataFrame().enrich.profile()] without ydata-profiling. *)
Lemma profile_fallback_describe_failure_witness :
  profile "ydata" false [] 0%nat (world_of [table_empty])
  = (Raise (mk_exn ValueError [Lit "Cannot describe a DataFrame without columns"]),
     mk_world [table_empty]
       [mk_warning ImportWarning
          [Lit "ydata-profiling not installed. Install with: pip install ydata-profiling"]]).
Proof.
  exact (profile_fallback_describe_failure (H := simple_pandas) (H1 := example_ydata)
           false [] 0%nat (world_of [table_empty]) table_empty _ _
           eq_refl eq_refl eq_refl eq_refl).
Defined.

(** [test_config_setting], and a second call that changes one option and
    adds another. *)
Lemma config_merges_options_witness :
  let earlier := config [("registry_url", KStr "https://api.example.com"); ("retries", KInt 3)]
                        (__init__ 0%nat) in
  let later := config [("registry_url", KStr "https://b.example.com"); ("timeout", KInt 30)]
                      earlier in
  NoDup ["registry_url"; "timeout"]
  ∧ assoc "registry_url" (_config later) = Some (KStr "https://b.example.com")
  ∧ assoc "retries" (_config later) = Some (KInt 3)
  ∧ _obj later = 0%nat.
Proof.
  cbv zeta.
  assert (Hnodup : NoDup ["registry_url"; "timeout"]) by compute_done.
  destruct (config_merges_options
              [("registry_url", KStr "https://b.example.com"); ("timeout", KInt 30)]
              (config [("registry_url", KStr "https://api.example.com"); ("retries", KInt 3)]
                 (__init__ 0%nat)) Hnodup) as (Hgiven & Hkept & _ & Hobj).
  split_and!.
  - exact Hnodup.
  - apply Hgiven. apply list_elem_of_here.
  - rewrite Hkept; [reflexivity|]. compute_done.
  - exact Hobj.
Defined.
